(** * ChainOS (xuperos) gateway: endorser RPC interceptor, endorser client
      cache and node startup orchestration.

    Shallow embedding of
      - [RpcServ] of package [endorser]: [UnaryInterceptor], [defReqHeader],
        [createReqCtx], [getClietIP], [genTraceId], [convertErr],
        [getClient];
      - [StartupXuperos], [runEngine], [runServ] of [cmd/xuperos/cmd/startup.go].

    Go pointers that may be nil are [option]s, a Go [panic] is the [Panic]
    result of the [M] monad, the deferred [recover] is [UnaryInterceptor]'s
    outermost match, goroutines are interleaved by step relations. *)

From Stdlib Require Import Ascii String.
From stdpp Require Import gmap strings pretty list.

Local Open Scope string_scope.

(** ** Wire envelope ([pb.Header]) *)

(** Modelled from the spec: the declaration of the enumeration
    [pb.XChainErrorEnum] is generated code that is not part of the sources at
    hand.  The interceptor names [XChainErrorEnum_UNKNOW_ERROR] only; the
    success sentinel is the spec's SUCCESS; every other wire code is kept by
    its number. *)
Inductive XChainErrorEnum : Type :=
  | XChainErrorEnum_SUCCESS
  | XChainErrorEnum_UNKNOW_ERROR
  | XChainErrorEnum_CODE (n : Z).

(** [pb.Header]: correlation id, origin id, status. *)
Record Header : Type := mkHeader {
  Logid : string;
  FromNode : string;
  Error : XChainErrorEnum
}.

(** A protobuf message seen through its [Header] field, a [*pb.Header] that
    may be nil.  Every message type of the service declares the exported
    field [Header], so that on a non-nil message [FieldByName "Header"] is
    valid and settable, and [IsNil] is the test for [None]. *)
Record Message : Type := mkMessage {
  msgHeader : option Header;
  msgBody : string
}.

(** The generated getters are nil-safe. *)
Definition GetLogid (h : option Header) : string :=
  match h with Some x => Logid x | None => "" end.

Definition GetFromNode (h : option Header) : string :=
  match h with Some x => FromNode x | None => "" end.

Definition setLogid (id : string) (h : Header) : Header :=
  mkHeader id (FromNode h) (Error h).

Definition setHeader (h : option Header) (m : Message) : Message :=
  mkMessage h (msgBody m).

(** ** Errors *)

(** [ecom.Error]: the engine's standard error. *)
Record StdError : Type := mkStdError {
  Status : Z;
  Code : Z;
  Msg : string
}.

(** A non-nil Go [error]: either made by [fmt.Errorf], or an [*ecom.Error]. *)
Inductive error : Type :=
  | Errorf (msg : string)
  | EcomErr (e : StdError).

(** ** Transport metadata and contexts *)

(** [peer.Peer]: [Addr] is a [net.Addr] (nil, or an address with its
    [String()]). *)
Record Peer : Type := mkPeer { Addr : option string }.

(** [sctx.ReqCtx] as far as the interceptor reads it. *)
Record ReqCtx : Type := mkReqCtx {
  rcLogid : string;
  rcClientIp : string
}.

(** [context.Context]: the peer put there by the transport and the request
    context put there by [sctx.WithReqCtx] (which may be a nil interface). *)
Record Context : Type := mkContext {
  ctxPeer : option Peer;
  ctxReqCtx : option ReqCtx
}.

Definition WithReqCtx (ctx : Context) (rc : option ReqCtx) : Context :=
  mkContext (ctxPeer ctx) rc.

(** ** Logs *)

Inductive Level : Type := LError | LTrace | LInfo.

Inductive LogVal : Type :=
  | VStr (s : string)
  | VInt (z : Z).

(** One emitted line: the logger ([None] is the server's own [t.log],
    [Some id] the per-request logger of that correlation id), the level, the
    message and the key/value fields. *)
Record LogEntry : Type := mkLog {
  logOwner : option string;
  logLevel : Level;
  logMsg : string;
  logFields : list (string * LogVal)
}.

(** ** [strings.Split] with a one-byte separator *)

Fixpoint Split (s : string) (sep : ascii) : list string :=
  match s with
  | EmptyString => [EmptyString]
  | String a s' =>
      if Ascii.eqb a sep then EmptyString :: Split s' sep
      else match Split s' sep with
           | [] => [String a EmptyString]
           | w :: ws => String a w :: ws
           end
  end.

(** ** Results that may panic *)

Inductive Res (A : Type) : Type :=
  | Val (a : A)
  | Panic (v : string).
Arguments Val {A} a.
Arguments Panic {A} v.

(** [getClietIP]: the text of the peer address before its first colon. *)
Definition getClietIP (gctx : Context) : Res (string * option error) :=
  match ctxPeer gctx with
  | None => Val ("", Some (Errorf "create peer form context failed"))
  | Some pr =>
      match Addr pr with
      | None => Val ("", Some (Errorf "get client_ip failed because peer.Addr is nil"))
      | Some a =>
          let addrSlice := Split a ":"%char in
          match addrSlice !! 0%nat with
          | Some x => Val (x, None)
          | None => Panic "index out of range [0] with length 0"
          end
      end
  end.

(** ** Collaborators outside the package

    What the interceptor calls but does not define: [utils.GenLogId] (the
    [n]-th identifier it hands out in this process), [utils.GetHostName],
    [ecom.CastError] (its result is an [*ecom.Error], possibly nil),
    [ecom.ErrSuccess], the table [acom.StdErrToXchainErrMap], the failure of
    [sctx.NewReqCtx] for a correlation id and a client address, and the text
    printed by the request timer. *)
Class Collaborators : Type := {
  GenLogId : nat -> string;
  GetHostName : string;
  CastError : error -> option StdError;
  ErrSuccess : StdError;
  StdErrToXchainErrMap : gmap Z XChainErrorEnum;
  newReqCtxErr : string -> string -> option error;
  timerPrint : string
}.

(** Modelled from the spec: [sctx.NewReqCtx] is not part of the sources at
    hand.  It builds the request context from the derived address and the
    correlation id (with a fresh timer), or fails. *)
Definition NewReqCtx `{Collaborators} (logid clientIp : string)
    : option ReqCtx * option error :=
  match newReqCtxErr logid clientIp with
  | Some e => (None, Some e)
  | None => (Some (mkReqCtx logid clientIp), None)
  end.

(** ** State of the serving process and of one call *)

(** Process-wide: how many correlation ids were generated, and the log. *)
Record Server : Type := mkServer {
  genCount : nat;
  logs : list LogEntry
}.

(** One running call: the request object behind the [req] pointer (the
    interceptor writes its header in place) and the named results
    [respRes], [err]. *)
Record Call : Type := mkCall {
  srv : Server;
  reqObj : Message;
  respRes : option Message;
  retErr : option error
}.

Definition M (A : Type) : Type := Call -> Res A * Call.

#[export] Instance M_ret : MRet M := fun A a c => (Val a, c).

#[export] Instance M_bind : MBind M := fun A B f m c =>
  match m c with
  | (Val a, c') => f a c'
  | (Panic v, c') => (Panic v, c')
  end.

Definition panic {A : Type} (v : string) : M A := fun c => (Panic v, c).

Definition liftRes {A : Type} (r : Res A) : M A := fun c => (r, c).

Definition getReq : M Message := fun c => (Val (reqObj c), c).

Definition putReq (m : Message) : M unit := fun c =>
  (Val tt, mkCall (srv c) m (respRes c) (retErr c)).

Definition setResults (resp : option Message) (e : option error) : M unit :=
  fun c => (Val tt, mkCall (srv c) (reqObj c) resp e).

Definition emit (l : LogEntry) : M unit := fun c =>
  (Val tt, mkCall (mkServer (genCount (srv c)) (logs (srv c) ++ [l]))
                  (reqObj c) (respRes c) (retErr c)).

(** A call of [utils.GenLogId()]. *)
Definition genLogId `{Collaborators} : M string := fun c =>
  (Val (GenLogId (genCount (srv c))),
   mkCall (mkServer (S (genCount (srv c))) (logs (srv c)))
          (reqObj c) (respRes c) (retErr c)).

(** ** EnvelopeCodec *)

Definition defReqHeader `{Collaborators} : M Header :=
  id ← genLogId;
  mret (mkHeader id "" XChainErrorEnum_UNKNOW_ERROR).

Definition genTraceId `{Collaborators} : string := GetHostName.

Definition convertErr `{Collaborators} (stdErr : option StdError) : XChainErrorEnum :=
  match stdErr with
  | None => XChainErrorEnum_UNKNOW_ERROR
  | Some e =>
      match StdErrToXchainErrMap !! Code e with
      | Some errCode => errCode
      | None => XChainErrorEnum_UNKNOW_ERROR
      end
  end.

(** ** Request context *)

Definition errorText (e : error) : string :=
  match e with Errorf m => m | EcomErr s => Msg s end.

Definition createReqCtx `{Collaborators} (gctx : Context) (reqHeader : option Header)
    : M (option ReqCtx * option error) :=
  r ← liftRes (getClietIP gctx);
  match r with
  | (_, Some e) =>
      emit (mkLog None LError "access proc failed because get client ip failed"
                  [("error", VStr (errorText e))]);;
      mret (None, Some (Errorf "get client ip failed"))
  | (clientIp, None) =>
      match NewReqCtx (GetLogid reqHeader) clientIp with
      | (_, Some e) =>
          emit (mkLog None LError
                      "access proc failed because create request context failed"
                      [("error", VStr (errorText e))]);;
          mret (None, Some (Errorf "create request context failed"))
      | (rctx, None) => mret (rctx, None)
      end
  end.

(** Methods of a [sctx.ReqCtx] interface value; on nil they panic. *)
Definition nilDeref : string :=
  "runtime error: invalid memory address or nil pointer dereference".

Definition GetClientIp (rc : option ReqCtx) : M string :=
  match rc with Some x => mret (rcClientIp x) | None => panic nilDeref end.

Definition GetLog (rc : option ReqCtx) : M string :=
  match rc with Some x => mret (rcLogid x) | None => panic nilDeref end.

Definition GetTimerPrint `{Collaborators} (rc : option ReqCtx) : M string :=
  match rc with Some _ => mret timerPrint | None => panic nilDeref end.

(** ** The interceptor *)

(** What [handler(ctx, req)] does: it returns a response (a pointer, nil or
    not) and an error (nil or not), or it panics. *)
Inductive HandlerOutcome : Type :=
  | HReturn (resp : option Message) (e : option error)
  | HPanic (v : string).

Definition UnaryHandler : Type := Context -> Message -> HandlerOutcome.

(** The body of the closure, between the [defer] and the final [return]. *)
Definition interceptorBody `{Collaborators} (ctx : Context) (FullMethod : string)
    (handler : UnaryHandler) : M unit :=
  (* set request header *)
  req ← getReq;
  match msgHeader req with
  | None => d ← defReqHeader; putReq (setHeader (Some d) req)
  | Some _ => mret tt
  end;;
  req ← getReq;
  (if String.eqb (GetLogid (msgHeader req)) "" then
     id ← genLogId;
     match msgHeader req with
     | Some h => putReq (setHeader (Some (setLogid id h)) req)
     | None => panic nilDeref
     end
   else mret tt);;
  req ← getReq;
  let reqHeader := msgHeader req in
  (* set request context *)
  rc ← createReqCtx ctx reqHeader;
  let reqCtx := rc.1 in
  let ctx := WithReqCtx ctx reqCtx in
  (* output access log *)
  clientIp ← GetClientIp reqCtx;
  let logFields := [("from", VStr (GetFromNode reqHeader));
                    ("client_ip", VStr clientIp);
                    ("rpc_method", VStr FullMethod)] in
  lg ← GetLog reqCtx;
  emit (mkLog (Some lg) LTrace "access request" logFields);;
  (* handle request *)
  match handler ctx req with
  | HPanic v => panic v
  | HReturn resp e =>
      setResults resp e;;
      let stdErr := match e with
                    | Some e' => CastError e'
                    | None => Some ErrSuccess
                    end in
      req ← getReq;
      let respHeader := mkHeader (GetLogid (msgHeader req)) genTraceId
                                 (convertErr stdErr) in
      match resp with
      | None => panic "reflect: call of reflect.Value.Elem on zero Value"
      | Some m =>
          match msgHeader m with
          | None => setResults (Some (setHeader (Some respHeader) m)) e
          | Some _ => mret tt
          end
      end;;
      (* output ending log *)
      match stdErr with
      | None => panic nilDeref
      | Some s =>
          cost ← GetTimerPrint reqCtx;
          lg ← GetLog reqCtx;
          emit (mkLog (Some lg) LInfo "request done"
                      (logFields ++ [("status", VInt (Status s));
                                     ("err_code", VInt (Code s));
                                     ("err_msg", VStr (Msg s));
                                     ("cost_time", VStr cost)]))
      end
  end.

(** The deferred closure: [recover()] stops a panic of the body, and the
    value is logged on the server's logger. *)
Definition recovered (r : Res unit) (FullMethod : string) : M unit :=
  match r with
  | Panic e =>
      emit (mkLog None LError "Rpc server happen panic."
                  [("error", VStr e); ("rpc_method", VStr FullMethod)])
  | Val _ => mret tt
  end.

(** [UnaryInterceptor]: one intercepted call on server state [s].  The
    result is what the closure hands back to the transport, or the panic
    that leaves it; the final [Call] holds the request object as the
    interceptor left it and the server state for the next call. *)
Definition UnaryInterceptor `{Collaborators} (ctx : Context) (req : Message)
    (FullMethod : string) (handler : UnaryHandler) (s : Server)
    : Res (option Message * option error) * Call :=
  let c0 := mkCall s req None None in
  let '(r, c1) := interceptorBody ctx FullMethod handler c0 in
  match recovered r FullMethod c1 with
  | (Val _, c2) => (Val (respRes c2, retErr c2), c2)
  | (Panic v, c2) => (Panic v, c2)
  end.

(** ** ConnectionCache: [getClient] *)

(** [grpc.Dial] as the cache sees it: whether the [n]-th dial of the process,
    to a given host, fails.  A connection (and the client that wraps it) is
    named by the number of the dial that made it. *)
Class Transport : Type := {
  grpcDial : string -> nat -> option error
}.

(** What [getClient] shares between tasks: [t.clientCache], [t.mutex], and
    the history of dials (host, connection made or [None] for a failure). *)
Record Shared : Type := mkShared {
  clientCache : gmap string nat;
  mutex : bool;
  dials : list (string * option nat)
}.

(** Where a task stands inside [getClient]. *)
Inductive Pc : Type :=
  | PcEntry                 (* before the host test and the first Load *)
  | PcLock                  (* at t.mutex.Lock() *)
  | PcRecheck               (* mutex held, before the second Load *)
  | PcDial                  (* mutex held, before grpc.Dial *)
  | PcStore (c : nat)       (* mutex held, before clientCache.Store *)
  | PcUnlock (r : option nat * option error)  (* at the deferred Unlock *)
  | PcDone (r : option nat * option error).   (* returned *)

Record Task : Type := mkTask {
  host : string;
  pc : Pc
}.

(** One atomic step of a task; [None] when the task is blocked on the mutex
    or has returned. *)
Definition taskStep `{Transport} (t : Task) (sh : Shared) : option (Task * Shared) :=
  match pc t with
  | PcEntry =>
      if String.eqb (host t) "" then
        Some (mkTask (host t) (PcDone (None, Some (Errorf "empty host"))), sh)
      else
        match clientCache sh !! host t with
        | Some c => Some (mkTask (host t) (PcDone (Some c, None)), sh)
        | None => Some (mkTask (host t) PcLock, sh)
        end
  | PcLock =>
      if mutex sh then None
      else Some (mkTask (host t) PcRecheck,
                 mkShared (clientCache sh) true (dials sh))
  | PcRecheck =>
      match clientCache sh !! host t with
      | Some c => Some (mkTask (host t) (PcUnlock (Some c, None)), sh)
      | None => Some (mkTask (host t) PcDial, sh)
      end
  | PcDial =>
      let n := length (dials sh) in
      match grpcDial (host t) n with
      | Some e => Some (mkTask (host t) (PcUnlock (None, Some e)),
                        mkShared (clientCache sh) (mutex sh)
                                 (dials sh ++ [(host t, None)]))
      | None => Some (mkTask (host t) (PcStore n),
                      mkShared (clientCache sh) (mutex sh)
                               (dials sh ++ [(host t, Some n)]))
      end
  | PcStore c =>
      Some (mkTask (host t) (PcUnlock (Some c, None)),
            mkShared (<[host t := c]> (clientCache sh)) (mutex sh) (dials sh))
  | PcUnlock r =>
      Some (mkTask (host t) (PcDone r),
            mkShared (clientCache sh) false (dials sh))
  | PcDone _ => None
  end.

(** A task run alone, for at most [fuel] steps. *)
Fixpoint runTask `{Transport} (fuel : nat) (t : Task) (sh : Shared) : Task * Shared :=
  match fuel with
  | O => (t, sh)
  | S fuel' =>
      match taskStep t sh with
      | Some (t', sh') => runTask fuel' t' sh'
      | None => (t, sh)
      end
  end.

(** [getClient(host)] called by a single task: the six steps of the longest
    path.  The result is [None] when the call does not return (the mutex is
    held and nobody releases it). *)
Definition getClient `{Transport} (h : string) (sh : Shared)
    : option (option nat * option error) * Shared :=
  let '(t, sh') := runTask 6 (mkTask h PcEntry) sh in
  (match pc t with PcDone r => Some r | _ => None end, sh').

(** Tasks calling [getClient] concurrently. *)
Record Pool : Type := mkPool {
  tasks : list Task;
  shared : Shared
}.

(** The scheduler lets task [i] take its next step. *)
Definition poolStep `{Transport} (i : nat) (p : Pool) : option Pool :=
  match tasks p !! i with
  | None => None
  | Some t =>
      match taskStep t (shared p) with
      | None => None
      | Some (t', sh') => Some (mkPool (<[i := t']> (tasks p)) sh')
      end
  end.

Inductive Step `{Transport} : Pool -> Pool -> Prop :=
  | Step_task (i : nat) (p p' : Pool) : poolStep i p = Some p' -> Step p p'.

(** A schedule is the list of the tasks' turns; a turn of a task that cannot
    move is skipped. *)
Fixpoint runSchedule `{Transport} (sched : list nat) (p : Pool) : Pool :=
  match sched with
  | [] => p
  | i :: sched' =>
      match poolStep i p with
      | Some p' => runSchedule sched' p'
      | None => runSchedule sched' p
      end
  end.

(** [N] tasks at the entry of [getClient(h)]. *)
Definition spawn (N : nat) (h : string) (sh : Shared) : Pool :=
  mkPool (replicate N (mkTask h PcEntry)) sh.

(** The connections established to [h] so far. *)
Definition established (h : string) (sh : Shared) : list nat :=
  omap (fun d : string * option nat =>
          if String.eqb d.1 h then d.2 else None) (dials sh).

Definition inCritical (t : Task) : bool :=
  match pc t with
  | PcRecheck | PcDial | PcStore _ | PcUnlock _ => true
  | _ => false
  end.


(** ** LifecycleOrchestrator: [StartupXuperos] from [wg.Add(2)] on *)

(** The state of the startup operation and of the goroutines it spawns.
    [runEngine] and [runServ] each start a goroutine that runs the subsystem
    and then sends on its own unbuffered channel; the channel of [runServ] is
    bound to [servChan].  The coordinating loop selects on [engChan],
    [rpcChan] and [sigChan]: [rpcChan] is not declared by [StartupXuperos]
    and nothing in the file sends on it, so it belongs to the environment,
    and [servChan] is never received from. *)
Record Orch : Type := mkOrch {
  wg : Z;                    (* the WaitGroup counter *)
  engineRunning : bool;      (* engine.Start() has not returned *)
  servRunning : bool;        (* servMG.Run() has not returned *)
  engChanSend : bool;        (* runEngine's goroutine waits in exitCh <- true *)
  servChanSend : bool;       (* runServ's goroutine waits in exitCh <- err *)
  engineExitCalls : nat;     (* calls of engine.Exit() *)
  servExitCalls : nat;       (* calls of serv.Exit() *)
  returned : bool;           (* wg.Wait() is over, StartupXuperos returned nil *)
  crashed : bool             (* wg.Done() below zero panicked in the loop *)
}.

(** After [wg.Add(2)], [runEngine(engine)], [runServ(serv)]. *)
Definition started : Orch :=
  mkOrch 2 true true false false 0 0 false false.

Inductive Event : Type :=
  | EngineStartReturns       (* engine.Start() returns *)
  | ServRunReturns           (* servMG.Run() returns *)
  | RecvEngChan              (* case <-engChan *)
  | RecvRpcChan              (* case <-rpcChan, when its owner sends *)
  | RecvSigChan              (* case <-sigChan, on SIGINT, SIGTERM or SIGQUIT *)
  | WaitReturns.             (* wg.Wait() unblocks *)

(** [wg.Done()]: a counter that would go below zero panics, and a panic in
    the loop's goroutine ends the process. *)
Definition wgDone (o : Orch) : Orch :=
  if (wg o <=? 0)%Z then
    mkOrch (wg o) (engineRunning o) (servRunning o) (engChanSend o)
           (servChanSend o) (engineExitCalls o) (servExitCalls o)
           (returned o) true
  else
    mkOrch (wg o - 1) (engineRunning o) (servRunning o) (engChanSend o)
           (servChanSend o) (engineExitCalls o) (servExitCalls o)
           (returned o) (crashed o).

Definition servExit (o : Orch) : Orch :=
  mkOrch (wg o) (engineRunning o) (servRunning o) (engChanSend o)
         (servChanSend o) (engineExitCalls o) (S (servExitCalls o))
         (returned o) (crashed o).

Definition engineExit (o : Orch) : Orch :=
  mkOrch (wg o) (engineRunning o) (servRunning o) (engChanSend o)
         (servChanSend o) (S (engineExitCalls o)) (servExitCalls o)
         (returned o) (crashed o).

(** One event; [None] when it cannot happen in this state.  Nothing happens
    once the operation has returned or the process has crashed. *)
Definition orchStep (e : Event) (o : Orch) : option Orch :=
  if returned o || crashed o then None
  else
    match e with
    | EngineStartReturns =>
        if engineRunning o then
          Some (mkOrch (wg o) false (servRunning o) true (servChanSend o)
                       (engineExitCalls o) (servExitCalls o)
                       (returned o) (crashed o))
        else None
    | ServRunReturns =>
        if servRunning o then
          Some (mkOrch (wg o) (engineRunning o) false (engChanSend o) true
                       (engineExitCalls o) (servExitCalls o)
                       (returned o) (crashed o))
        else None
    | RecvEngChan =>
        if engChanSend o then
          Some (wgDone (servExit
                  (mkOrch (wg o) (engineRunning o) (servRunning o) false
                          (servChanSend o) (engineExitCalls o)
                          (servExitCalls o) (returned o) (crashed o))))
        else None
    | RecvRpcChan => Some (wgDone (engineExit o))
    | RecvSigChan => Some (engineExit (servExit o))
    | WaitReturns =>
        if (wg o =? 0)%Z then
          Some (mkOrch (wg o) (engineRunning o) (servRunning o) (engChanSend o)
                       (servChanSend o) (engineExitCalls o) (servExitCalls o)
                       true (crashed o))
        else None
    end.

(** A run of events from a state; [None] when one of them cannot happen. *)
Fixpoint orchRun (tr : list Event) (o : Orch) : option Orch :=
  match tr with
  | [] => Some o
  | e :: tr' =>
      match orchStep e o with
      | Some o' => orchRun tr' o'
      | None => None
      end
  end.

(** [StartupXuperos] once engine and service are built: the state reached
    from [started] by a run of events. *)
Definition StartupXuperos (tr : list Event) : option Orch := orchRun tr started.

(** The engine, resp. the service, has signalled completion: its start
    routine returned and its goroutine reached the send on its channel. *)
Definition engineCompleted (o : Orch) : bool := negb (engineRunning o).
Definition servCompleted (o : Orch) : bool := negb (servRunning o).

(** ** Concrete collaborators, for the examples *)

Definition ErrUnknown : StdError := mkStdError 500 50001 "unknown error".
Definition ErrForbidden : StdError := mkStdError 403 40300 "forbidden".
Definition ErrUnmapped : StdError := mkStdError 500 59999 "not in the table".

#[local] Instance demoCollaborators : Collaborators := {|
  GenLogId := fun n => "logid-" +:+ pretty n;
  GetHostName := "node-a";
  CastError := fun e => match e with
                        | EcomErr s => Some s
                        | Errorf _ => Some ErrUnknown
                        end;
  ErrSuccess := mkStdError 200 0 "success";
  StdErrToXchainErrMap :=
    <[0%Z := XChainErrorEnum_SUCCESS]>
      (<[50001%Z := XChainErrorEnum_UNKNOW_ERROR]>
         (<[40300%Z := XChainErrorEnum_CODE 7]> ∅));
  newReqCtxErr := fun _ _ => None;
  timerPrint := "1ms"
|}.

(** A handler that echoes the request body and leaves the envelope empty. *)
Definition echoHandler : UnaryHandler :=
  fun _ req => HReturn (Some (mkMessage None (msgBody req))) None.

(** A handler that fails with a given error and an empty-envelope response. *)
Definition failingHandler (e : error) : UnaryHandler :=
  fun _ req => HReturn (Some (mkMessage None "")) (Some e).

(** A handler that relays a peer's answer, envelope included. *)
Definition relayHandler (answer : Message) : UnaryHandler :=
  fun _ _ => HReturn (Some answer) None.

(** A handler that panics. *)
Definition panickingHandler : UnaryHandler :=
  fun _ _ => HPanic "index out of range".

Definition tcpCtx (addr : string) : Context :=
  mkContext (Some (mkPeer (Some addr))) None.

Definition freshServer : Server := mkServer 0 [].

(** Dials that always succeed, and dials that always fail. *)
Definition dialOk : Transport := {| grpcDial := fun _ _ => None |}.
Definition dialDown : Transport :=
  {| grpcDial := fun _ _ => Some (Errorf "dial failed") |}.

(** The first dial of the process fails, the later ones succeed. *)
Definition dialFlaky : Transport :=
  {| grpcDial := fun _ n => match n with
                            | O => Some (Errorf "dial failed")
                            | S _ => None
                            end |}.

Definition emptyShared : Shared := mkShared ∅ false [].

(** Whether a byte occurs in a string. *)
Fixpoint contains (c : ascii) (s : string) : bool :=
  match s with
  | EmptyString => false
  | String a s' => Ascii.eqb a c || contains c s'
  end.

(** A handler that answers with the client address of its request context. *)
Definition whoamiHandler : UnaryHandler :=
  fun ctx _ =>
    HReturn (Some (mkMessage None
                     (match ctxReqCtx ctx with
                      | Some rc => rcClientIp rc
                      | None => ""
                      end))) None.

(** The status the interceptor computes for a handler error: [stdErr] of the
    closure, then [convertErr]. *)
Definition statusOf `{Collaborators} (e : option error) : XChainErrorEnum :=
  convertErr (match e with
              | Some e' => CastError e'
              | None => Some ErrSuccess
              end).

Definition isDone (t : Task) : bool :=
  match pc t with PcDone _ => true | _ => false end.

(** The result a task has computed: it is at its deferred [Unlock], or it has
    returned. *)
Definition result (t : Task) : option (option nat * option error) :=
  match pc t with
  | PcUnlock r | PcDone r => Some r
  | _ => None
  end.

(** The request object once the header phase of the interceptor (lines
    54-67) ran, with [n] identifiers generated before the call. *)
Definition headerFilled `{Collaborators} (req : Message) (n : nat) : Message :=
  match msgHeader req with
  | None =>
      if String.eqb (GenLogId n) "" then
        mkMessage (Some (mkHeader (GenLogId (S n)) "" XChainErrorEnum_UNKNOW_ERROR))
                  (msgBody req)
      else
        mkMessage (Some (mkHeader (GenLogId n) "" XChainErrorEnum_UNKNOW_ERROR))
                  (msgBody req)
  | Some h =>
      if String.eqb (Logid h) "" then
        mkMessage (Some (mkHeader (GenLogId n) (FromNode h) (Error h))) (msgBody req)
      else req
  end.


(** The state of a server between calls: the mutex is free, and the cache
    and the history of dials agree (a cached host has exactly the cached
    connection established, any other host has none). *)
Definition consistent (sh : Shared) : Prop :=
  mutex sh = false /\
  forall h, established h sh =
            match clientCache sh !! h with Some c => [c] | None => [] end.

(** The steps a task still has to take at most. *)
Definition remaining (t : Task) : nat :=
  match pc t with
  | PcEntry => 6
  | PcLock => 5
  | PcRecheck => 4
  | PcDial => 3
  | PcStore _ => 2
  | PcUnlock _ => 1
  | PcDone _ => 0
  end.

Definition remainingAll (p : Pool) : nat :=
  foldr (fun t n => remaining t + n) 0 (tasks p).

(** What holds of every pool that can be reached from tasks at the entry of
    [getClient] over a consistent shared state: the mutex is held whenever a
    task is between [Lock] and its return, at most one task is there, and
    the cache, the dial history and the tasks' positions agree. *)
Record Inv `{Transport} (p : Pool) : Prop := mkInv {
  inv_mutex : forall i t,
    tasks p !! i = Some t -> inCritical t = true -> mutex (shared p) = true;
  inv_held :
    mutex (shared p) = true ->
    exists i t, tasks p !! i = Some t /\ inCritical t = true;
  inv_excl : forall i j ti tj,
    tasks p !! i = Some ti -> tasks p !! j = Some tj ->
    inCritical ti = true -> inCritical tj = true -> i = j;
  inv_cached : forall h c,
    clientCache (shared p) !! h = Some c -> established h (shared p) = [c];
  inv_uncached : forall h,
    clientCache (shared p) !! h = None ->
    established h (shared p) = [] \/
    exists i t c, tasks p !! i = Some t /\ host t = h /\ pc t = PcStore c /\
                  established h (shared p) = [c];
  inv_store : forall i t c,
    tasks p !! i = Some t -> pc t = PcStore c ->
    clientCache (shared p) !! host t = None /\
    established (host t) (shared p) = [c];
  inv_dial : forall i t,
    tasks p !! i = Some t -> pc t = PcDial ->
    clientCache (shared p) !! host t = None /\
    established (host t) (shared p) = [];
  inv_done : forall i t r,
    tasks p !! i = Some t -> result t = Some r ->
    (exists c, r = (Some c, None) /\ clientCache (shared p) !! host t = Some c) \/
    (exists e, r = (None, Some e) /\
               (host t = "" \/ exists n, grpcDial (host t) n = Some e))
}.

(** ** The rest of the endorser server and of the startup command *)

(** The envelope the interceptor hands back with a handler's response: a nil
    response stays nil, a response that has an envelope keeps it, a response
    without one gets [respHeader] (lines 87-96). *)
Definition attachHeader (respHeader : Header) (resp : option Message)
    : option Message :=
  match resp with
  | None => None
  | Some m =>
      match msgHeader m with
      | None => Some (setHeader (Some respHeader) m)
      | Some _ => Some m
      end
  end.

(** [math/rand] as [getHost] uses it: the value of [rand.Intn(n)] drawn right
    after [rand.Seed(seed)]. *)
Class RandSource : Type := {
  Intn : Z -> nat -> nat
}.

(** [getHost], at Unix time [now], over [t.conf.EndorserHosts]. *)
Definition getHost `{RandSource} (now : Z) (EndorserHosts : list string)
    : Res string :=
  let host := "" in
  let hostCnt := length EndorserHosts in
  if (0 <? hostCnt)%nat then
    let index := Intn now hostCnt in
    match EndorserHosts !! index with
    | Some h => Val h
    | None => Panic "index out of range"
    end
  else Val host.

(** [RpcServ] as far as [getHost] and [getClient] read it: the configured
    endorser hosts, and the client cache with its mutex (together with the
    history of dials). *)
Record RpcServ : Type := mkRpcServ {
  EndorserHosts : list string;
  cacheState : Shared
}.

(** [NewRpcServ]: [clientCache] and [mutex] are left at their zero values,
    an empty map and an unlocked mutex. *)
Definition NewRpcServ (scfEndorserHosts : list string) : RpcServ :=
  mkRpcServ scfEndorserHosts (mkShared ∅ false []).

(** The hosts of the connections established so far, oldest first: one
    entry per successful dial. *)
Definition dialedHosts (sh : Shared) : list string :=
  omap (fun d : string * option nat =>
          match d.2 with Some _ => Some d.1 | None => None end) (dials sh).

(** A generator in the range [rand.Intn] promises. *)
Definition modRand : RandSource :=
  {| Intn := fun seed n => (Z.to_nat seed mod n)%nat |}.

(** *** Counting the events of a run of the coordinating loop *)

#[export] Instance Event_eq_dec : EqDecision Event.
Proof. solve_decision. Defined.

Definition occurrences (e : Event) (tr : list Event) : nat :=
  length (filter (fun x => x = e) tr).

(** *** [StartupXuperos] before the subsystems are started (lines 52-72) and
    [loadConf] *)

(** What the startup reads and builds, outside this file: the two
    configuration loaders, the paths computed from the environment
    configuration, the engine and the service manager. *)
Class Boot : Type := {
  EnvConf : Type;
  ServConf : Type;
  BCEngine : Type;
  ServMG : Type;
  LoadEnvConf : string -> EnvConf + error;
  LoadServConf : string -> ServConf + error;
  envServConf : EnvConf -> string;       (* envConf.ServConf *)
  envLogConf : EnvConf -> string;        (* envConf.LogConf *)
  envLogDir : EnvConf -> string;         (* envConf.LogDir *)
  GenConfFilePath : EnvConf -> string -> string;
  GenDirAbsPath : EnvConf -> string -> string;
  CreateBCEngine : EnvConf -> BCEngine + error;
  NewServMG : ServConf -> BCEngine -> ServMG + error
}.

Definition loadConf `{Boot} (envCfgPath : string) : (EnvConf * ServConf) + error :=
  match LoadEnvConf envCfgPath with
  | inr err => inr err
  | inl envConf =>
      match LoadServConf (GenConfFilePath envConf (envServConf envConf)) with
      | inr err => inr err
      | inl servConf => inl (envConf, servConf)
      end
  end.

(** What the startup has done to the process when it returns or starts to
    wait. *)
Inductive BootAction : Type :=
  | InitLog (conf dir : string)     (* logs.InitLog *)
  | EngineCreated                   (* engines.CreateBCEngine succeeded *)
  | ServiceCreated                  (* service.NewServMG succeeded *)
  | SubsystemsStarted.              (* wg.Add(2), runEngine, runServ, the loop *)

(** Lines 52-77: the actions done, and the error returned early or the
    engine and the service that were started. *)
Definition startupPrologue `{Boot} (envCfgPath : string)
    : list BootAction * ((BCEngine * ServMG) + error) :=
  match loadConf envCfgPath with
  | inr err => ([], inr err)
  | inl (envConf, servConf) =>
      let a1 := [InitLog (GenConfFilePath envConf (envLogConf envConf))
                         (GenDirAbsPath envConf (envLogDir envConf))] in
      match CreateBCEngine envConf with
      | inr err => (a1, inr err)
      | inl engine =>
          match NewServMG servConf engine with
          | inr err => ((a1 ++ [EngineCreated])%list, inr err)
          | inl serv =>
              ((a1 ++ [EngineCreated; ServiceCreated; SubsystemsStarted])%list,
               inl (engine, serv))
          end
      end
  end.

(** The whole operation on a run [tr] of the loop's events: the actions done
    and, when it returns, the error it returns ([None] is the [nil] of line
    101).  [None] as a whole: it is still waiting in [wg.Wait()], or the
    events cannot happen. *)
Definition StartupXuperosFrom `{Boot} (envCfgPath : string) (tr : list Event)
    : list BootAction * option (option error) :=
  match startupPrologue envCfgPath with
  | (acts, inr err) => (acts, Some (Some err))
  | (acts, inl _) =>
      match StartupXuperos tr with
      | Some o => (acts, if returned o then Some None else None)
      | None => (acts, None)
      end
  end.

(** A configuration for the examples: only the path [env.yaml] loads, and
    the engine cannot be created. *)
Definition demoBoot : Boot := {|
  EnvConf := string; ServConf := string; BCEngine := unit; ServMG := unit;
  LoadEnvConf := fun p => if String.eqb p "env.yaml" then inl "env"
                          else inr (Errorf "no such file");
  LoadServConf := fun p => inl p;
  envServConf := fun _ => "server.yaml";
  envLogConf := fun _ => "log.yaml";
  envLogDir := fun _ => "logs";
  GenConfFilePath := fun _ f => "conf/" +:+ f;
  GenDirAbsPath := fun _ d => "/data/" +:+ d;
  CreateBCEngine := fun _ => inr (Errorf "engine failed");
  NewServMG := fun _ _ => inl tt
|}.

(** * Properties *)

(** ** [strings.Split] *)

Lemma Split_nonempty (s : string) (sep : ascii) :
  exists w ws, Split s sep = w :: ws.
Proof.
  induction s as [|a s IH]; simpl; [by eauto |].
  destruct (Ascii.eqb a sep); [by eauto |].
  destruct IH as (w & ws & ->). by eauto.
Qed.

Lemma Split_head (s : string) (sep : ascii) (w : string) (ws : list string) :
  Split s sep = w :: ws ->
  contains sep w = false /\ (s = w \/ exists rest, s = w +:+ String sep rest).
Proof.
  revert w ws. induction s as [|a s IH]; simpl; intros w ws Hs.
  - inversion Hs; subst. by auto.
  - destruct (Ascii.eqb_spec a sep) as [->|Hne].
    + inversion Hs; subst. split; [done |]. right. by exists s.
    + destruct (Split_nonempty s sep) as (w' & ws' & Hw).
      rewrite Hw in Hs. inversion Hs; subst.
      destruct (IH _ _ Hw) as [Hc Hd]. split.
      * simpl. rewrite Hc. by destruct (Ascii.eqb_spec a sep).
      * destruct Hd as [->|[rest ->]]; [by left |].
        right. by exists rest.
Qed.

(** ** The interceptor *)

Ltac unfold_m :=
  unfold UnaryInterceptor, interceptorBody, recovered, createReqCtx,
    defReqHeader, genLogId, GetClientIp, GetLog, GetTimerPrint, NewReqCtx,
    putReq, getReq, setResults, emit, liftRes, panic,
    mbind, M_bind, mret, M_ret in *.

Ltac crush_call :=
  repeat (case_match; simpl in *; simplify_eq); try done.

Section Interceptor.
Context `{Collaborators}.

Lemma getClietIP_addr (gctx : Context) (pr : Peer) (a : string) :
  ctxPeer gctx = Some pr -> Addr pr = Some a ->
  exists ip, getClietIP gctx = Val (ip, None) /\
    contains ":" ip = false /\
    (a = ip \/ exists rest, a = ip +:+ String ":" rest).
Proof.
  intros Hp Ha. unfold getClietIP. rewrite Hp, Ha.
  destruct (Split_nonempty a ":") as (w & ws & Hw).
  rewrite Hw. simpl. exists w. split; [done |].
  by apply (Split_head _ _ _ _ Hw).
Qed.

(** The statuses [convertErr] can give, by the handler's error. *)
Lemma statusOf_cases (e : option error) :
  (e = None ->
   StdErrToXchainErrMap !! Code ErrSuccess = Some XChainErrorEnum_SUCCESS ->
   statusOf e = XChainErrorEnum_SUCCESS)
  /\ (forall e' se code, e = Some e' -> CastError e' = Some se ->
      StdErrToXchainErrMap !! Code se = Some code -> statusOf e = code)
  /\ (forall e', e = Some e' ->
      (CastError e' = None \/
       exists se, CastError e' = Some se /\ StdErrToXchainErrMap !! Code se = None) ->
      statusOf e = XChainErrorEnum_UNKNOW_ERROR).
Proof.
  unfold statusOf, convertErr. repeat split.
  - intros -> Ht. by rewrite Ht.
  - intros e' se code -> Hc Ht. by rewrite Hc, Ht.
  - intros e' -> [Hc|(se & Hc & Ht)]; rewrite Hc; [done |]. by rewrite Ht.
Qed.

(** Nothing after the header phase writes the request object. *)
Lemma request_after_call (ctx : Context) (req : Message) (FullMethod : string)
    (handler : UnaryHandler) (s : Server) :
  reqObj (UnaryInterceptor ctx req FullMethod handler s).2
  = headerFilled req (genCount s).
Proof.
  unfold headerFilled. unfold_m. destruct req as [[h|] b]; simpl.
  - destruct (String.eqb (Logid h) ""); simpl; crush_call.
  - destruct (String.eqb (GenLogId (genCount s)) ""); simpl; crush_call.
Qed.

End Interceptor.

Section InterceptorClaims.
Context `{Collaborators}.

(** The deferred [recover] stops every panic of the body: the closure always
    returns to the transport. *)
Lemma interceptor_always_returns (ctx : Context) (req : Message)
    (FullMethod : string) (handler : UnaryHandler) (s : Server) :
  exists r, (UnaryInterceptor ctx req FullMethod handler s).1 = Val r.
Proof.
  unfold UnaryInterceptor.
  destruct (interceptorBody ctx FullMethod handler (mkCall s req None None))
    as [[u|v] c1]; simpl; by eauto.
Qed.

(** C1, amended.  When the handler is reached and panics, the panic does not
    leave the interceptor: the closure returns, with a nil response and a nil
    error (there is no envelope and no status), the panic value is logged on
    the server's logger, and the next call on the resulting server state
    returns as well. *)
Theorem handler_fault_is_contained
    (ctx : Context) (req : Message) (FullMethod : string)
    (handler : UnaryHandler) (s : Server) (ip v : string) :
  let out := UnaryInterceptor ctx req FullMethod handler s in
  let req' := reqObj out.2 in
  let lid := GetLogid (msgHeader req') in
  getClietIP ctx = Val (ip, None) ->
  newReqCtxErr lid ip = None ->
  handler (WithReqCtx ctx (Some (mkReqCtx lid ip))) req' = HPanic v ->
  out.1 = Val (None, None)
  /\ last (logs (srv out.2))
     = Some (mkLog None LError "Rpc server happen panic."
                   [("error", VStr v); ("rpc_method", VStr FullMethod)])
  /\ (forall ctx2 req2 FullMethod2 handler2, exists r2,
        (UnaryInterceptor ctx2 req2 FullMethod2 handler2 (srv out.2)).1 = Val r2).
Proof.
  intros out req' lid Hip Hn Hh.
  split; [| split; [| intros; by apply interceptor_always_returns]];
    subst out req' lid; revert Hn Hh; rewrite request_after_call;
    unfold_m; unfold headerFilled, setLogid, setHeader, WithReqCtx; rewrite Hip;
    destruct req as [[h|] b]; simpl.
  - destruct (String.eqb (Logid h) ""); simpl;
      intros Hn Hh; rewrite Hn; simpl; by rewrite Hh.
  - destruct (String.eqb (GenLogId (genCount s)) ""); simpl;
      intros Hn Hh; rewrite Hn; simpl; by rewrite Hh.
  - destruct (String.eqb (Logid h) ""); simpl;
      intros Hn Hh; rewrite Hn; simpl; rewrite Hh; simpl;
      by rewrite last_snoc.
  - destruct (String.eqb (GenLogId (genCount s)) ""); simpl;
      intros Hn Hh; rewrite Hn; simpl; rewrite Hh; simpl;
      by rewrite last_snoc.
Qed.

(** C4, amended.  When the handler is reached and returns a response whose
    envelope field is empty, the interceptor returns that response with an
    envelope made of the request's correlation id, this node's name and the
    mapped status, together with the handler's error.  The status is the
    table's code for [ErrSuccess] (SUCCESS when the table says so) for a nil
    error, the designated code when the code of the cast error is in the
    table, and UNKNOW_ERROR otherwise. *)
Theorem response_status_when_envelope_empty
    (ctx : Context) (req : Message) (FullMethod : string)
    (handler : UnaryHandler) (s : Server)
    (ip : string) (m : Message) (e : option error) :
  let out := UnaryInterceptor ctx req FullMethod handler s in
  let req' := reqObj out.2 in
  let lid := GetLogid (msgHeader req') in
  getClietIP ctx = Val (ip, None) ->
  newReqCtxErr lid ip = None ->
  handler (WithReqCtx ctx (Some (mkReqCtx lid ip))) req' = HReturn (Some m) e ->
  msgHeader m = None ->
  out.1 = Val (Some (setHeader (Some (mkHeader lid GetHostName (statusOf e))) m), e)
  /\ (e = None ->
      StdErrToXchainErrMap !! Code ErrSuccess = Some XChainErrorEnum_SUCCESS ->
      statusOf e = XChainErrorEnum_SUCCESS)
  /\ (forall e' se code, e = Some e' -> CastError e' = Some se ->
      StdErrToXchainErrMap !! Code se = Some code -> statusOf e = code)
  /\ (forall e', e = Some e' ->
      (CastError e' = None \/
       exists se, CastError e' = Some se /\ StdErrToXchainErrMap !! Code se = None) ->
      statusOf e = XChainErrorEnum_UNKNOW_ERROR).
Proof.
  intros out req' lid Hip Hn Hh Hm. split; [| by apply statusOf_cases].
  subst out req' lid. revert Hn Hh. rewrite request_after_call.
  unfold_m. unfold headerFilled, statusOf, genTraceId, setLogid, setHeader, WithReqCtx. rewrite Hip.
  destruct req as [[h|] b]; simpl.
  - destruct (String.eqb (Logid h) ""); simpl;
      intros Hn Hh; rewrite Hn; simpl; rewrite Hh; simpl; rewrite Hm; simpl;
      crush_call.
  - destruct (String.eqb (GenLogId (genCount s)) ""); simpl;
      intros Hn Hh; rewrite Hn; simpl; rewrite Hh; simpl; rewrite Hm; simpl;
      crush_call.
Qed.

(** C5.  Without peer metadata, or with a peer that carries no address,
    context creation fails, the interceptor drops that error, runs into the
    nil request context and recovers: the closure returns a nil response and
    a nil error, whatever the handler would have done.  No error is handed
    to the caller. *)
Theorem missing_peer_returns_nil_nil
    (rc : option ReqCtx) (req : Message) (FullMethod : string)
    (handler : UnaryHandler) (s : Server) :
  (UnaryInterceptor (mkContext None rc) req FullMethod handler s).1
    = Val (None, None)
  /\ (UnaryInterceptor (mkContext (Some (mkPeer None)) rc) req FullMethod handler s).1
    = Val (None, None)
  /\ (createReqCtx (mkContext None rc) (msgHeader req) (mkCall s req None None)).1
    = Val (None, Some (Errorf "get client ip failed")).
Proof.
  repeat split; unfold_m; simpl; crush_call.
Qed.

(** C6.  A request that arrives without an envelope leaves the interceptor
    with one: its correlation id is the identifier the generator hands out
    next (so it is fresh, and non-empty when the generator's identifiers
    are), its origin is empty and its status is the UNKNOWN placeholder.
    This holds whatever happens later in the call. *)
Theorem request_without_envelope_gets_one
    (ctx : Context) (req : Message) (FullMethod : string)
    (handler : UnaryHandler) (s : Server) :
  msgHeader req = None ->
  GenLogId (genCount s) <> "" ->
  let final := (UnaryInterceptor ctx req FullMethod handler s).2 in
  exists id,
    reqObj final =
      mkMessage (Some (mkHeader id "" XChainErrorEnum_UNKNOW_ERROR)) (msgBody req)
    /\ id = GenLogId (genCount s)
    /\ id <> ""
    /\ genCount (srv final) = S (genCount s).
Proof.
  intros Hh Hid final. subst final. exists (GenLogId (genCount s)).
  split; [| split; [done | split; [done |]]].
  - rewrite request_after_call. unfold headerFilled. rewrite Hh.
    by destruct (String.eqb_spec (GenLogId (genCount s)) "").
  - unfold_m. destruct req as [h b]. simpl in *. subst h. simpl.
    destruct (String.eqb_spec (GenLogId (genCount s)) "") as [E|_]; [done |].
    simpl. crush_call.
Qed.

(** C8.  A request that carries an envelope with an empty correlation id
    leaves the interceptor with the same envelope, the correlation id filled
    in: origin, status and body are the ones it came with. *)
Theorem empty_logid_filled_in_place
    (ctx : Context) (req : Message) (h : Header) (FullMethod : string)
    (handler : UnaryHandler) (s : Server) :
  msgHeader req = Some h ->
  Logid h = "" ->
  reqObj (UnaryInterceptor ctx req FullMethod handler s).2 =
    mkMessage (Some (mkHeader (GenLogId (genCount s)) (FromNode h) (Error h)))
              (msgBody req).
Proof.
  intros Hh Hid. rewrite request_after_call. unfold headerFilled.
  by rewrite Hh, Hid.
Qed.

(** C10.  With peer metadata and an address, the client address of the
    request context is the text of the address before its first colon (the
    whole text when it has none); for [[2001:db8::1]:5123] that is [[2001]. *)
Theorem client_ip_is_text_before_first_colon
    (gctx : Context) (pr : Peer) (a : string) (reqHeader : option Header)
    (c : Call) :
  ctxPeer gctx = Some pr ->
  Addr pr = Some a ->
  (forall ip, newReqCtxErr (GetLogid reqHeader) ip = None) ->
  exists ip,
    getClietIP gctx = Val (ip, None)
    /\ createReqCtx gctx reqHeader c
      = (Val (Some (mkReqCtx (GetLogid reqHeader) ip), None), c)
    /\ contains ":" ip = false
    /\ (a = ip \/ exists rest, a = ip +:+ String ":" rest)
    /\ getClietIP (tcpCtx "[2001:db8::1]:5123") = Val ("[2001", None).
Proof.
  intros Hp Ha Hn.
  destruct (getClietIP_addr gctx pr a Hp Ha) as (ip & Hip & Hc & Hd).
  exists ip. split; [done |]. split; [| by repeat split].
  unfold_m. rewrite Hip. simpl. by rewrite Hn.
Qed.

End InterceptorClaims.

(** ** The connection cache *)

Section Cache.
Context `{Transport}.

Lemma established_snoc_None (h h' : string) (sh : Shared)
    (cc : gmap string nat) (m : bool) :
  established h (mkShared cc m (dials sh ++ [(h', None)])) = established h sh.
Proof.
  unfold established. simpl. rewrite omap_app. simpl.
  destruct (String.eqb h' h); by rewrite app_nil_r.
Qed.

Lemma established_snoc_ne (h h' : string) (o : option nat) (sh : Shared)
    (cc : gmap string nat) (m : bool) :
  h' <> h ->
  established h (mkShared cc m (dials sh ++ [(h', o)])) = established h sh.
Proof.
  intros Hne. unfold established. simpl. rewrite omap_app. simpl.
  destruct (String.eqb_spec h' h); [done |]. by rewrite app_nil_r.
Qed.

Lemma established_snoc_eq (h : string) (c : nat) (sh : Shared)
    (cc : gmap string nat) (m : bool) :
  established h (mkShared cc m (dials sh ++ [(h, Some c)]))
  = (established h sh ++ [c])%list.
Proof.
  unfold established. simpl. rewrite omap_app. simpl.
  by rewrite String.eqb_refl.
Qed.

Lemma established_dials (h : string) (sh sh' : Shared) :
  dials sh' = dials sh -> established h sh' = established h sh.
Proof. unfold established. by intros ->. Qed.

Ltac look :=
  repeat match goal with
  | Hl : <[_:=_]> _ !! _ = Some _ |- _ =>
      apply list_lookup_insert_Some in Hl;
      destruct Hl as [(-> & <- & ?)|[? Hl]]
  end.

Lemma uncached_keep (ts : list Task) (i : nat) (t t' : Task) (h : string)
    (est : list nat) :
  ts !! i = Some t ->
  (forall c, pc t = PcStore c -> host t <> h) ->
  (est = [] \/ exists j tj c, ts !! j = Some tj /\ host tj = h /\
                              pc tj = PcStore c /\ est = [c]) ->
  est = [] \/ exists j tj c, <[i:=t']> ts !! j = Some tj /\ host tj = h /\
                             pc tj = PcStore c /\ est = [c].
Proof.
  intros Hi Hpc [?|(j & tj & c & Hj & Hh & Hp & He)]; [by left |].
  right. exists j, tj, c. split; [| done].
  rewrite list_lookup_insert_ne; [done |].
  intros ->. rewrite Hi in Hj. simplify_eq. by eapply Hpc.
Qed.

Lemma held_keep (ts : list Task) (i : nat) (t t' : Task) :
  ts !! i = Some t -> inCritical t = false ->
  (exists j tj, ts !! j = Some tj /\ inCritical tj = true) ->
  exists j tj, <[i:=t']> ts !! j = Some tj /\ inCritical tj = true.
Proof.
  intros Hi Hcr (j & tj & Hj & Hcrj). exists j, tj. split; [| done].
  rewrite list_lookup_insert_ne; [done |].
  intros ->. rewrite Hi in Hj. injection Hj as <-. congruence.
Qed.

Lemma held_self (ts : list Task) (i : nat) (t' : Task) :
  i < length ts -> inCritical t' = true ->
  exists j tj, <[i:=t']> ts !! j = Some tj /\ inCritical tj = true.
Proof.
  intros Hlt Hcr. exists i, t'. split; [| done].
  by apply list_lookup_insert_eq.
Qed.

Ltac keep_held :=
  first [ eapply held_self; [eassumption | reflexivity]
        | eapply held_keep; [eassumption | reflexivity | eauto] ].

Ltac keep_uncached :=
  eapply uncached_keep;
  [ eassumption
  | simpl; intros; first [discriminate | congruence]
  | eauto ].

Ltac clause := intros; look; unfold result in *; simpl in *; simplify_eq/=; eauto.

Ltac other_critical Hothers :=
  match goal with
  | Hl : _ !! ?j = Some ?tj, Hp : pc ?tj = _ |- _ =>
      let Hcr := fresh in
      assert (Hcr : inCritical tj = false) by (eapply Hothers; eauto);
      unfold inCritical in Hcr; rewrite Hp in Hcr; discriminate
  end.

Lemma Inv_step (i : nat) (p p' : Pool) :
  Inv p -> poolStep i p = Some p' -> Inv p'.
Proof.
  intros [Hmu Hhe Hex Hca Hun Hst Hdi Hdo]. unfold poolStep.
  destruct p as [ts sh]. simpl in *.
  destruct (ts !! i) as [t|] eqn:Hi; [| done].
  assert (Hlt : i < length ts) by (by eapply lookup_lt_Some).
  assert (Hothers : inCritical t = true ->
            forall j tj, ts !! j = Some tj -> i <> j -> inCritical tj = false).
  { intros Hcr j tj Hj Hne. destruct (inCritical tj) eqn:Hcr'; [| done].
    exfalso. apply Hne. eapply Hex; eauto. }
  destruct t as [h q]. unfold taskStep. simpl.
  destruct q as [| | | | c | r | r]; simpl.
  - (* entry: host test and first Load *)
    destruct (String.eqb_spec h "") as [->|Hne].
    + intros [= <-]. split; simpl; clause.
      all: try keep_held.
      all: try keep_uncached.
    + destruct (clientCache sh !! h) as [c|] eqn:Hc; intros [= <-];
        split; simpl; clause.
      all: try keep_held.
      all: try keep_uncached.
  - (* Lock *)
    destruct (mutex sh) eqn:Hm; [done |]. intros [= <-].
    split; simpl; clause.
    all: try keep_held.
    all: try keep_uncached.
  - (* second Load *)
    specialize (Hothers eq_refl).
    destruct (clientCache sh !! h) as [c|] eqn:Hc; intros [= <-];
      split; simpl; clause.
    all: try keep_held.
    all: try keep_uncached.
    split; [done |].
    destruct (Hun h Hc) as [?|(j & tj & c & Hj & Hh & Hp & He)]; [done |].
    destruct (decide (i0 = j)) as [<-|Hne].
    + rewrite Hi in Hj. injection Hj as <-. simpl in Hp. discriminate.
    + specialize (Hothers _ _ Hj Hne). unfold inCritical in Hothers.
      by rewrite Hp in Hothers.
  - (* Dial *)
    specialize (Hothers eq_refl).
    destruct (Hdi _ _ Hi eq_refl) as [Hc He]. simpl in Hc, He.
    destruct (grpcDial h (length (dials sh))) as [e|] eqn:Hd; intros [= <-].
    + split; simpl; intros; rewrite ?established_snoc_None; clause.
      all: try keep_held.
      all: try keep_uncached.
      all: try other_critical Hothers.
      right. exists e. split; [done |]. right. by eauto.
    + split; simpl; clause.
      all: try keep_held.
      all: try other_critical Hothers.
      * rewrite established_snoc_ne; [by eauto |]. intros ->. congruence.
      * destruct (decide (h = h0)) as [<-|Hne].
        -- right. exists i, (mkTask h (PcStore (length (dials sh)))),
             (length (dials sh)).
           rewrite list_lookup_insert_eq by done.
           by rewrite established_snoc_eq, He.
        -- rewrite established_snoc_ne by done.
           keep_uncached.
      * split; [done |]. by rewrite established_snoc_eq, He.
  - (* Store *)
    specialize (Hothers eq_refl).
    destruct (Hst _ _ _ Hi eq_refl) as [Hc He]. simpl in Hc, He.
    intros [= <-].
    split; simpl; clause.
    all: try keep_held.
    all: try other_critical Hothers.
    all: rewrite ?(established_dials _ sh) by done.
    + destruct (decide (h = h0)) as [<-|Hne].
      * rewrite lookup_insert_eq in *. by simplify_eq.
      * rewrite lookup_insert_ne in * by done. by eauto.
    + destruct (decide (h = h0)) as [<-|Hne].
      * by rewrite lookup_insert_eq in *.
      * rewrite lookup_insert_ne in * by done. keep_uncached.
    + left. exists c. by rewrite lookup_insert_eq.
    + match goal with
      | Hl : ts !! _ = Some ?t, Hr : _ = Some ?r |- _ =>
          destruct (Hdo _ _ _ Hl Hr) as [(c0 & -> & Hc0)|?]; [| by right]
      end.
      left. exists c0. split; [done |].
      rewrite lookup_insert_ne; [done |]. intros Heq.
      rewrite <- Heq in Hc0. congruence.
  - (* deferred Unlock *)
    specialize (Hothers eq_refl).
    intros [= <-].
    split; simpl; clause.
    all: try other_critical Hothers.
    all: rewrite ?(established_dials _ sh) by done.
    all: try keep_held.
    all: try keep_uncached.
    exact (Hdo _ _ _ Hi eq_refl).
  - done.
Qed.

Lemma Inv_init (ts : list Task) (sh : Shared) :
  Forall (fun t => pc t = PcEntry) ts -> consistent sh -> Inv (mkPool ts sh).
Proof.
  intros Hts Hco.
  assert (Hentry : forall i t, ts !! i = Some t -> pc t = PcEntry).
  { intros i t Hi. by eapply (Forall_lookup_1 _ _ _ _ Hts). }
  destruct Hco as [Hfree Hco]. split; simpl.
  - intros i t Hi. unfold inCritical. by rewrite (Hentry _ _ Hi).
  - by rewrite Hfree.
  - intros i j ti tj Hi _. unfold inCritical. by rewrite (Hentry _ _ Hi).
  - intros h c Hc. by rewrite Hco, Hc.
  - intros h Hc. left. by rewrite Hco, Hc.
  - intros i t c Hi Hp. by rewrite (Hentry _ _ Hi) in Hp.
  - intros i t Hi Hp. by rewrite (Hentry _ _ Hi) in Hp.
  - intros i t r Hi Hp. unfold result in Hp. by rewrite (Hentry _ _ Hi) in Hp.
Qed.

Lemma Inv_rtc (p p' : Pool) : rtc Step p p' -> Inv p -> Inv p'.
Proof.
  induction 1 as [|p q r Hpq _ IH]; [done |].
  intros Hp. apply IH. destruct Hpq as [i p q Hs]. by eapply Inv_step.
Qed.

(** Every schedule is a run of the step relation. *)
Lemma runSchedule_rtc (sched : list nat) (p : Pool) :
  rtc Step p (runSchedule sched p).
Proof.
  revert p. induction sched as [|i sched IH]; intros p; simpl; [done |].
  destruct (poolStep i p) as [p'|] eqn:Hs; [| by apply IH].
  eapply rtc_l; [by econstructor | by apply IH].
Qed.

(** A step changes neither the number of tasks nor the host of any. *)
Lemma taskStep_host (t t' : Task) (sh sh' : Shared) :
  taskStep t sh = Some (t', sh') -> host t' = host t.
Proof.
  unfold taskStep. intros Hs.
  repeat (case_match; simplify_eq/=); done.
Qed.

Lemma Step_hosts (p p' : Pool) :
  rtc Step p p' -> host <$> tasks p' = host <$> tasks p.
Proof.
  induction 1 as [|p q r Hpq _ IH]; [done |].
  rewrite IH. destruct Hpq as [i p q Hs]. unfold poolStep in Hs.
  destruct (tasks p !! i) as [t|] eqn:Hi; [| done].
  destruct (taskStep t (shared p)) as [[t' sh']|] eqn:Ht; [| done].
  simplify_eq/=. rewrite list_fmap_insert.
  rewrite (taskStep_host _ _ _ _ Ht).
  apply list_insert_id. by rewrite list_lookup_fmap, Hi.
Qed.

Lemma Inv_at_most_one (p : Pool) (h : string) :
  Inv p -> length (established h (shared p)) <= 1.
Proof.
  intros HI. destruct (clientCache (shared p) !! h) as [c|] eqn:Hc.
  - by rewrite (inv_cached _ HI _ _ Hc).
  - destruct (inv_uncached _ HI _ Hc) as [->|(i & t & c & _ & _ & _ & ->)];
      simpl; lia.
Qed.

(** *** Progress: no call is left waiting *)

Lemma taskStep_remaining (t t' : Task) (sh sh' : Shared) :
  taskStep t sh = Some (t', sh') -> remaining t' < remaining t.
Proof.
  unfold taskStep, remaining. intros Hs.
  repeat (case_match; simplify_eq/=); lia.
Qed.

Lemma remaining_insert (ts : list Task) (i : nat) (t t' : Task) :
  ts !! i = Some t -> remaining t' < remaining t ->
  foldr (fun t n => remaining t + n) 0 (<[i:=t']> ts)
  < foldr (fun t n => remaining t + n) 0 ts.
Proof.
  revert i. induction ts as [|a ts IH]; intros [|i] Hi Hlt; simpl in *;
    try done.
  - simplify_eq. lia.
  - specialize (IH _ Hi Hlt). lia.
Qed.

Lemma poolStep_remaining (i : nat) (p p' : Pool) :
  poolStep i p = Some p' -> remainingAll p' < remainingAll p.
Proof.
  unfold poolStep, remainingAll. intros Hs.
  destruct (tasks p !! i) as [t|] eqn:Hi; [| done].
  destruct (taskStep t (shared p)) as [[t' sh']|] eqn:Ht; [| done].
  simplify_eq/=. eapply remaining_insert; [done |].
  by eapply taskStep_remaining.
Qed.

Lemma not_all_done (ts : list Task) :
  forallb isDone ts = false ->
  exists i t, ts !! i = Some t /\ isDone t = false.
Proof.
  induction ts as [|a ts IH]; simpl; [done |].
  destruct (isDone a) eqn:Ha; simpl.
  - intros Hf. destruct (IH Hf) as (i & t & Hi & Ht). by exists (S i), t.
  - intros _. by exists 0%nat, a.
Qed.

(** A task inside the critical section can always take its step. *)
Lemma critical_steps (t : Task) (sh : Shared) :
  inCritical t = true -> exists t' sh', taskStep t sh = Some (t', sh').
Proof.
  unfold inCritical, taskStep. intros Hcr.
  repeat (case_match; simplify_eq/=); by eauto.
Qed.

(** As long as a call has not returned, some task can move. *)
Lemma progress (p : Pool) :
  Inv p -> forallb isDone (tasks p) = false ->
  exists i p', poolStep i p = Some p'.
Proof.
  intros HI Hnd. destruct (not_all_done _ Hnd) as (i & t & Hi & Ht).
  assert (Hmove : forall j tj, tasks p !! j = Some tj ->
            (exists t' sh', taskStep tj (shared p) = Some (t', sh')) ->
            exists k p', poolStep k p = Some p').
  { intros j tj Hj (t' & sh' & Hs). exists j. unfold poolStep.
    rewrite Hj, Hs. by eauto. }
  destruct (inCritical t) eqn:Hcr.
  { apply (Hmove i t Hi). by apply critical_steps. }
  destruct (mutex (shared p)) eqn:Hm.
  - destruct (inv_held _ HI Hm) as (j & tj & Hj & Hcrj).
    apply (Hmove j tj Hj). by apply critical_steps.
  - apply (Hmove i t Hi). unfold taskStep, isDone, inCritical in *. rewrite Hm.
    repeat (case_match; simplify_eq/=); by eauto.
Qed.

(** Every pool can be scheduled until all calls have returned. *)
Lemma completes (p : Pool) :
  Inv p -> exists sched, forallb isDone (tasks (runSchedule sched p)) = true.
Proof.
  remember (remainingAll p) as n eqn:Hn. revert p Hn.
  induction n as [n IH] using lt_wf_ind. intros p Hn HI.
  destruct (forallb isDone (tasks p)) eqn:Hd.
  - by exists [].
  - destruct (progress p HI Hd) as (i & p' & Hs).
    destruct (IH (remainingAll p')) with (p := p') as [sched Hsched].
    + subst n. by eapply poolStep_remaining.
    + done.
    + by eapply Inv_step.
    + exists (i :: sched). simpl. by rewrite Hs.
Qed.

End Cache.

Section CacheClaims.
Context `{Transport}.

(** Any mix of hosts: tasks that enter [getClient] over a consistent shared
    state never establish a second connection to a host. *)
Lemma pool_at_most_one_connection (ts : list Task) (sh : Shared) (p : Pool) :
  Forall (fun t => pc t = PcEntry) ts ->
  consistent sh ->
  rtc Step (mkPool ts sh) p ->
  forall h, length (established h (shared p)) <= 1.
Proof.
  intros Hts Hco Hrtc h. apply Inv_at_most_one.
  eapply Inv_rtc; [done |]. by apply Inv_init.
Qed.

(** C7, amended.  [N] tasks call [getClient(h)] concurrently for a host [h]
    that is not cached, over a consistent shared state.  In every state they
    can reach, under every interleaving:
    - at most one connection has been established to any host;
    - a task that returned a connection returned the one connection
      established to [h], and that one is cached;
    - whatever is cached for [h] is that one connection;
    - the tasks can be scheduled on until all of them have returned (none
      is left waiting for the mutex);
    - when all of the [N >= 1] tasks have returned, [h] is not empty and no
      dial to [h] fails, exactly one connection has been established;
    - a task whose dial fails returns the error, releases the mutex on its
      way out and leaves the cache and the established connections as they
      were. *)
Theorem at_most_one_connection_per_host
    (N : nat) (h : string) (sh : Shared) (p : Pool) :
  consistent sh ->
  clientCache sh !! h = None ->
  rtc Step (spawn N h sh) p ->
  (forall h', length (established h' (shared p)) <= 1)
  /\ (forall t c, t ∈ tasks p -> pc t = PcDone (Some c, None) ->
        established h (shared p) = [c] /\ clientCache (shared p) !! h = Some c)
  /\ (forall c, clientCache (shared p) !! h = Some c ->
        established h (shared p) = [c])
  /\ (exists sched, forallb isDone (tasks (runSchedule sched p)) = true)
  /\ (0 < N -> h <> "" -> (forall n, grpcDial h n = None) ->
      forallb isDone (tasks p) = true ->
      length (established h (shared p)) = 1)
  /\ (forall t sh0 e, pc t = PcDial ->
        grpcDial (host t) (length (dials sh0)) = Some e ->
        exists sh1,
          runTask 2 t sh0 = (mkTask (host t) (PcDone (None, Some e)), sh1)
          /\ clientCache sh1 = clientCache sh0
          /\ mutex sh1 = false
          /\ forall h', established h' sh1 = established h' sh0).
Proof.
  intros Hco Hun Hrtc.
  assert (HI : Inv p).
  { eapply Inv_rtc; [done |]. apply Inv_init; [| done].
    unfold spawn. by apply Forall_replicate. }
  assert (Hhosts : forall t, t ∈ tasks p -> host t = h).
  { intros t Ht.
    assert (Hin : host t ∈ host <$> tasks p) by (by apply list_elem_of_fmap_2).
    rewrite (Step_hosts _ _ Hrtc) in Hin. unfold spawn in Hin. simpl in Hin.
    rewrite fmap_replicate in Hin. by apply elem_of_replicate in Hin as [? _]. }
  assert (Hret : forall t c, t ∈ tasks p -> pc t = PcDone (Some c, None) ->
            established h (shared p) = [c] /\ clientCache (shared p) !! h = Some c).
  { intros t c Ht Hp. apply list_elem_of_lookup in Ht as Hl. destruct Hl as [i Hi].
    assert (Hr : result t = Some (Some c, None)) by (unfold result; by rewrite Hp).
    destruct (inv_done _ HI _ _ _ Hi Hr) as [(c' & Heq & Hc)|(e & Heq & _)];
      [| done].
    simplify_eq. rewrite (Hhosts _ Ht) in Hc.
    split; [| done]. by apply (inv_cached _ HI). }
  split; [intros h'; by apply Inv_at_most_one |].
  split; [done |].
  split; [intros c Hc; by apply (inv_cached _ HI) |].
  split; [by apply completes |].
  split.
  - intros HN Hne Hdial Hdone.
    assert (Hlen : length (tasks p) = N).
    { rewrite <- (length_fmap host), (Step_hosts _ _ Hrtc). unfold spawn. simpl.
      by rewrite length_fmap, length_replicate. }
    destruct (lookup_lt_is_Some_2 (tasks p) 0%nat) as [t Hi]; [lia |].
    assert (Ht : t ∈ tasks p) by (by eapply list_elem_of_lookup_2).
    assert (Hd : isDone t = true).
    { eapply forallb_forall; [exact Hdone |]. by apply list_elem_of_In. }
    unfold isDone in Hd. destruct (pc t) as [| | | | | |r] eqn:Hp; try done.
    assert (Hr : result t = Some r) by (unfold result; by rewrite Hp).
    destruct (inv_done _ HI _ _ _ Hi Hr) as [(c & -> & Hc)|(e & -> & Hcause)].
    + by rewrite (proj1 (Hret _ _ Ht Hp)).
    + rewrite (Hhosts _ Ht) in Hcause.
      destruct Hcause as [?|[n Hn]]; [done |]. by rewrite Hdial in Hn.
  - intros t sh0 e Hp Hd. unfold runTask, taskStep. rewrite Hp, Hd. simpl.
    eexists. split; [done |]. simpl. repeat split.
    intros h'. by rewrite established_snoc_None.
Qed.

(** C9.  [getClient("")] returns the error "empty host" and touches nothing:
    the cache, the mutex and the history of dials are as before, so no
    connection was attempted.  In a pool, the step of a task that was called
    with the empty host is that return. *)
Theorem empty_host_is_rejected_without_dial (sh : Shared) :
  getClient "" sh = (Some (None, Some (Errorf "empty host")), sh)
  /\ dials (getClient "" sh).2 = dials sh
  /\ taskStep (mkTask "" PcEntry) sh
     = Some (mkTask "" (PcDone (None, Some (Errorf "empty host"))), sh).
Proof. by repeat split. Qed.

End CacheClaims.

(** ** The lifecycle orchestrator *)

(** What every run keeps as long as nothing arrives on [rpcChan]: the
    operation has not returned, the loop has not crashed, and the counter is
    2, or 1 once the engine's completion was received. *)
Lemma no_rpc_invariant (tr : list Event) (o o' : Orch) :
  RecvRpcChan ∉ tr ->
  orchRun tr o = Some o' ->
  returned o = false -> crashed o = false ->
  (engChanSend o = true -> engineRunning o = false) ->
  (wg o = 2%Z \/ (wg o = 1%Z /\ engineRunning o = false /\ engChanSend o = false)) ->
  returned o' = false /\ crashed o' = false /\
  (wg o' = 2%Z \/ (wg o' = 1%Z /\ engineRunning o' = false /\ engChanSend o' = false)).
Proof.
  revert o. induction tr as [|e tr IH]; intros o Hno Hrun Hr Hc Hse Hwg.
  - simpl in Hrun. by simplify_eq.
  - apply not_elem_of_cons in Hno as [Hne Hno]. simpl in Hrun.
    destruct (orchStep e o) as [o1|] eqn:Hs; [| done].
    apply (IH o1 Hno Hrun); clear IH Hrun;
      unfold orchStep in Hs; rewrite Hr, Hc in Hs; simpl in Hs;
      destruct e; try done; unfold wgDone, servExit, engineExit in Hs;
      simpl in Hs; repeat case_match; simplify_eq/=; try done;
      try (destruct Hwg as [Hw|(Hw & ? & ?)]; try congruence;
           rewrite Hw in *; simpl in *; try lia; by auto).
Qed.

(** Without a signal and without [rpcChan], [engine.Exit()] is not called,
    and a service that completed stays blocked in its send. *)
Lemma no_rpc_no_signal (tr : list Event) (o o' : Orch) :
  RecvRpcChan ∉ tr -> RecvSigChan ∉ tr ->
  orchRun tr o = Some o' ->
  engineExitCalls o' = engineExitCalls o
  /\ (servChanSend o = true -> servChanSend o' = true)
  /\ (ServRunReturns ∈ tr -> servChanSend o' = true /\ servRunning o' = false)
  /\ (servRunning o = false -> servRunning o' = false).
Proof.
  revert o. induction tr as [|e tr IH]; intros o Hno Hns Hrun.
  - simpl in Hrun. simplify_eq. split_and!; try done.
    intros Hin. by apply elem_of_nil in Hin.
  - apply not_elem_of_cons in Hno as [Hne Hno].
    apply not_elem_of_cons in Hns as [Hne' Hns]. simpl in Hrun.
    destruct (orchStep e o) as [o1|] eqn:Hs; [| done].
    destruct (IH o1 Hno Hns Hrun) as (He & Hsend & Hin & Hrunning). clear IH Hrun.
    unfold orchStep in Hs. destruct (returned o || crashed o); [done |].
    destruct e; try done; unfold wgDone, servExit, engineExit in Hs;
      repeat case_match; simplify_eq/=; rewrite He; simpl.
    all: split_and!; try done; simpl in *; auto.
    all: intros Hel; apply elem_of_cons in Hel as [?|Hel]; try done; auto.
Qed.

(** C2.  The engine's completion is answered: receiving from [engChan] calls
    [serv.Exit()] once more.  The service's completion is not: in a run with
    no signal and nothing on [rpcChan], after [servMG.Run()] has returned
    the service's goroutine is still waiting in its send on [servChan], and
    [engine.Exit()] has never been called. *)
Theorem service_completion_requests_no_engine_exit (tr : list Event) (o : Orch) :
  RecvRpcChan ∉ tr ->
  RecvSigChan ∉ tr ->
  ServRunReturns ∈ tr ->
  StartupXuperos tr = Some o ->
  (servCompleted o = true /\ servChanSend o = true /\ engineExitCalls o = 0)
  /\ (forall o1 o2, orchStep RecvEngChan o1 = Some o2 ->
        servExitCalls o2 = S (servExitCalls o1)).
Proof.
  intros Hno Hns Hin Hrun. split.
  - destruct (no_rpc_no_signal tr started o Hno Hns Hrun) as (He & _ & Hs & _).
    destruct (Hs Hin) as [Hsend Hrunning].
    unfold servCompleted. by rewrite Hrunning, Hsend, He.
  - intros o1 o2. unfold orchStep, wgDone, servExit.
    repeat case_match; intros; by simplify_eq/=.
Qed.

(** C3.  The second count of the barrier is taken on [rpcChan], not on the
    service's channel.  So a run in which the engine completes and a value
    arrives on [rpcChan] lets the operation return while [servMG.Run()] is
    still running; and in a run where nothing arrives on [rpcChan] the
    operation never returns, not even after both subsystems completed. *)
Theorem startup_barrier_counts_rpcChan (tr : list Event) (o : Orch) :
  RecvRpcChan ∉ tr ->
  StartupXuperos tr = Some o ->
  returned o = false
  /\ exists o', StartupXuperos [EngineStartReturns; RecvEngChan; RecvRpcChan;
                               WaitReturns] = Some o'
                /\ returned o' = true /\ servCompleted o' = false
                /\ servRunning o' = true.
Proof.
  intros Hno Hrun. split.
  - by destruct (no_rpc_invariant tr started o Hno Hrun) as (? & _); auto.
  - eexists. by split; [reflexivity |].
Qed.

(** ** The theorems at concrete inputs *)

Lemma consistent_empty : consistent emptyShared.
Proof.
  split; [done |]. intros h. unfold established. simpl. by rewrite lookup_empty.
Qed.

(** C1: a handler that panics behind a TCP peer; the call after it, on the
    same server, is served. *)
Lemma handler_fault_is_contained_witness :
  let out := UnaryInterceptor (tcpCtx "10.0.0.7:5123") (mkMessage None "q")
               "/pb.Xendorser/EndorserCall" panickingHandler freshServer in
  getClietIP (tcpCtx "10.0.0.7:5123") = Val ("10.0.0.7", None)
  /\ out.1 = Val (None, None)
  /\ last (logs (srv out.2))
     = Some (mkLog None LError "Rpc server happen panic."
               [("error", VStr "index out of range");
                ("rpc_method", VStr "/pb.Xendorser/EndorserCall")])
  /\ exists r2, (UnaryInterceptor (tcpCtx "10.0.0.7:5123") (mkMessage None "q2")
                   "/pb.Xendorser/EndorserCall" echoHandler (srv out.2)).1 = Val r2.
Proof.
  intros out. split; [reflexivity |].
  destruct (@handler_fault_is_contained demoCollaborators
              (tcpCtx "10.0.0.7:5123") (mkMessage None "q")
              "/pb.Xendorser/EndorserCall" panickingHandler freshServer
              "10.0.0.7" "index out of range")
    as (Hres & Hlog & Hnext); [reflexivity | reflexivity | reflexivity |].
  split; [exact Hres |]. split; [exact Hlog |]. apply Hnext.
Defined.

(** C1 as stated fails: the call of a panicking handler returns no response
    at all, hence no envelope and no status. *)
Lemma panicking_handler_gets_no_envelope :
  let out := UnaryInterceptor (tcpCtx "10.0.0.7:5123") (mkMessage None "q")
               "/pb.Xendorser/EndorserCall" panickingHandler freshServer in
  panickingHandler (WithReqCtx (tcpCtx "10.0.0.7:5123")
                      (Some (mkReqCtx "logid-0" "10.0.0.7"))) (reqObj out.2)
    = HPanic "index out of range"
  /\ out.1 = Val (None, None)
  /\ ~ (exists m hd e, out.1 = Val (Some m, e) /\ msgHeader m = Some hd).
Proof.
  intros out. split; [reflexivity |]. split; [by vm_compute |].
  intros (m & hd & e & Hout & _). vm_compute in Hout. discriminate.
Qed.

(** C4: a handler that fails with a registered error kind. *)
Lemma response_status_when_envelope_empty_witness :
  let out := UnaryInterceptor (tcpCtx "10.0.0.7:5123") (mkMessage None "q")
               "/pb.Xendorser/EndorserCall"
               (failingHandler (EcomErr ErrForbidden)) freshServer in
  getClietIP (tcpCtx "10.0.0.7:5123") = Val ("10.0.0.7", None)
  /\ out.1 = Val (Some (mkMessage
                          (Some (mkHeader "logid-0" "node-a" (XChainErrorEnum_CODE 7)))
                          ""),
                  Some (EcomErr ErrForbidden)).
Proof.
  intros out. split; [reflexivity |].
  destruct (@response_status_when_envelope_empty demoCollaborators
              (tcpCtx "10.0.0.7:5123") (mkMessage None "q")
              "/pb.Xendorser/EndorserCall"
              (failingHandler (EcomErr ErrForbidden)) freshServer
              "10.0.0.7" (mkMessage None "") (Some (EcomErr ErrForbidden)))
    as (Hres & _); [reflexivity | reflexivity | reflexivity | reflexivity |].
  exact Hres.
Defined.

(** C4 as stated fails: the handler returns no error, the table maps
    [ErrSuccess] to SUCCESS, and the response leaves with the status its
    envelope already had. *)
Lemma relayed_envelope_keeps_its_status :
  let answer := mkMessage (Some (mkHeader "peer-log" "node-b" (XChainErrorEnum_CODE 9)))
                  "signature" in
  let out := UnaryInterceptor (tcpCtx "10.0.0.7:5123") (mkMessage None "q")
               "/pb.Xendorser/EndorserCall" (relayHandler answer) freshServer in
  relayHandler answer (WithReqCtx (tcpCtx "10.0.0.7:5123")
                         (Some (mkReqCtx "logid-0" "10.0.0.7"))) (reqObj out.2)
    = HReturn (Some answer) None
  /\ StdErrToXchainErrMap !! Code ErrSuccess = Some XChainErrorEnum_SUCCESS
  /\ out.1 = Val (Some answer, None)
  /\ Error <$> msgHeader answer = Some (XChainErrorEnum_CODE 9)
  /\ ~ (exists m hd, out.1 = Val (Some m, None) /\ msgHeader m = Some hd
                     /\ Error hd = XChainErrorEnum_SUCCESS).
Proof.
  intros answer out. split; [reflexivity |]. split; [by vm_compute |].
  split; [by vm_compute |]. split; [reflexivity |].
  intros (m & hd & Hout & Hm & He). vm_compute in Hout.
  injection Hout as <-. simpl in Hm. injection Hm as <-. discriminate.
Qed.

(** C6: a request without an envelope. *)
Lemma request_without_envelope_gets_one_witness :
  msgHeader (mkMessage None "q") = None
  /\ GenLogId (genCount freshServer) <> ""
  /\ exists id,
       reqObj (UnaryInterceptor (tcpCtx "10.0.0.7:5123") (mkMessage None "q")
                 "/pb.Xendorser/EndorserCall" echoHandler freshServer).2
       = mkMessage (Some (mkHeader id "" XChainErrorEnum_UNKNOW_ERROR)) "q"
       /\ id = GenLogId (genCount freshServer)
       /\ id <> ""
       /\ genCount (srv (UnaryInterceptor (tcpCtx "10.0.0.7:5123")
                           (mkMessage None "q") "/pb.Xendorser/EndorserCall"
                           echoHandler freshServer).2) = 1.
Proof.
  assert (Hid : GenLogId (genCount freshServer) <> "") by (by vm_compute).
  split; [reflexivity |]. split; [exact Hid |].
  exact (@request_without_envelope_gets_one demoCollaborators
           (tcpCtx "10.0.0.7:5123") (mkMessage None "q")
           "/pb.Xendorser/EndorserCall" echoHandler freshServer eq_refl Hid).
Defined.

(** C8: a request whose envelope has an origin and a status but no
    correlation id. *)
Lemma empty_logid_filled_in_place_witness :
  Logid (mkHeader "" "client-7" (XChainErrorEnum_CODE 3)) = ""
  /\ reqObj (UnaryInterceptor (tcpCtx "10.0.0.7:5123")
               (mkMessage (Some (mkHeader "" "client-7" (XChainErrorEnum_CODE 3))) "q")
               "/pb.Xendorser/EndorserCall" echoHandler freshServer).2
     = mkMessage (Some (mkHeader (GenLogId 0) "client-7" (XChainErrorEnum_CODE 3))) "q".
Proof.
  split; [reflexivity |].
  exact (@empty_logid_filled_in_place demoCollaborators
           (tcpCtx "10.0.0.7:5123")
           (mkMessage (Some (mkHeader "" "client-7" (XChainErrorEnum_CODE 3))) "q")
           (mkHeader "" "client-7" (XChainErrorEnum_CODE 3))
           "/pb.Xendorser/EndorserCall" echoHandler freshServer eq_refl eq_refl).
Defined.

(** C10: an IPv4 peer. *)
Lemma client_ip_is_text_before_first_colon_witness :
  Addr (mkPeer (Some "10.0.0.7:5123")) = Some "10.0.0.7:5123"
  /\ exists ip,
       getClietIP (tcpCtx "10.0.0.7:5123") = Val (ip, None)
       /\ createReqCtx (tcpCtx "10.0.0.7:5123") None
            (mkCall freshServer (mkMessage None "q") None None)
         = (Val (Some (mkReqCtx "" ip), None),
            mkCall freshServer (mkMessage None "q") None None)
       /\ contains ":" ip = false
       /\ ("10.0.0.7:5123" = ip \/ exists rest, "10.0.0.7:5123" = ip +:+ String ":" rest)
       /\ getClietIP (tcpCtx "[2001:db8::1]:5123") = Val ("[2001", None).
Proof.
  split; [reflexivity |].
  exact (@client_ip_is_text_before_first_colon demoCollaborators
           (tcpCtx "10.0.0.7:5123") (mkPeer (Some "10.0.0.7:5123"))
           "10.0.0.7:5123" None
           (mkCall freshServer (mkMessage None "q") None None)
           eq_refl eq_refl (fun _ => eq_refl)).
Defined.

(** C7: two tasks taking turns, with dials that succeed. *)
Lemma at_most_one_connection_per_host_witness :
  let p := @runSchedule dialOk [0; 1; 0; 1; 0; 1; 0; 1; 0; 1; 0; 1; 1; 1]%nat
             (spawn 2 "peer:1" emptyShared) in
  clientCache emptyShared !! "peer:1" = None
  /\ forallb isDone (tasks p) = true
  /\ (forall h', length (established h' (shared p)) <= 1)
  /\ length (established "peer:1" (shared p)) = 1.
Proof.
  intros p.
  destruct (@at_most_one_connection_per_host dialOk 2 "peer:1" emptyShared p
              consistent_empty (lookup_empty _)
              (@runSchedule_rtc dialOk _ _))
    as (Hmost & _ & _ & _ & Hone & _).
  split; [apply lookup_empty |]. split; [by vm_compute |].
  split; [exact Hmost |].
  apply Hone; [lia | done | done | by vm_compute].
Defined.

(** C7 as stated fails: two tasks, dials that fail; both calls return and no
    connection has been established. *)
Lemma failed_dials_establish_nothing :
  let p := @runSchedule dialDown [0; 1; 0; 1; 0; 0; 0; 1; 1; 1; 1]%nat
             (spawn 2 "peer:1" emptyShared) in
  forallb isDone (tasks p) = true
  /\ established "peer:1" (shared p) = []
  /\ length (established "peer:1" (shared p)) <> 1
  /\ dials (shared p) = [("peer:1", None); ("peer:1", None)].
Proof. by vm_compute. Qed.

(** C2: the service completes first, then the engine. *)
Lemma service_completion_requests_no_engine_exit_witness :
  (RecvRpcChan ∉ [ServRunReturns; EngineStartReturns; RecvEngChan])
  /\ (RecvSigChan ∉ [ServRunReturns; EngineStartReturns; RecvEngChan])
  /\ (ServRunReturns ∈ [ServRunReturns; EngineStartReturns; RecvEngChan])
  /\ StartupXuperos [ServRunReturns; EngineStartReturns; RecvEngChan]
     = Some (mkOrch 1 false false false true 0 1 false false)
  /\ engineExitCalls (mkOrch 1 false false false true 0 1 false false) = 0.
Proof.
  assert (H1 : RecvRpcChan ∉ [ServRunReturns; EngineStartReturns; RecvEngChan]).
  { repeat (apply not_elem_of_cons; split; [done |]). apply not_elem_of_nil. }
  assert (H2 : RecvSigChan ∉ [ServRunReturns; EngineStartReturns; RecvEngChan]).
  { repeat (apply not_elem_of_cons; split; [done |]). apply not_elem_of_nil. }
  assert (H3 : ServRunReturns ∈ [ServRunReturns; EngineStartReturns; RecvEngChan])
    by (by left).
  split; [exact H1 |]. split; [exact H2 |]. split; [exact H3 |].
  split; [reflexivity |].
  exact (proj2 (proj2 (proj1
    (service_completion_requests_no_engine_exit _ _ H1 H2 H3 eq_refl)))).
Defined.

(** C3: both subsystems completed, nothing on [rpcChan]: not returned. *)
Lemma startup_barrier_counts_rpcChan_witness :
  (RecvRpcChan ∉ [ServRunReturns; EngineStartReturns; RecvEngChan])
  /\ StartupXuperos [ServRunReturns; EngineStartReturns; RecvEngChan]
     = Some (mkOrch 1 false false false true 0 1 false false)
  /\ returned (mkOrch 1 false false false true 0 1 false false) = false.
Proof.
  assert (H1 : RecvRpcChan ∉ [ServRunReturns; EngineStartReturns; RecvEngChan]).
  { repeat (apply not_elem_of_cons; split; [done |]). apply not_elem_of_nil. }
  split; [exact H1 |]. split; [reflexivity |].
  exact (proj1 (startup_barrier_counts_rpcChan _ _ H1 eq_refl)).
Defined.

(** ** Runs of the model on small inputs *)

Example Split_ipv4 : Split "10.0.0.7:5123" ":" = ["10.0.0.7"; "5123"].
Proof. reflexivity. Qed.

Example Split_ipv6 :
  Split "[2001:db8::1]:5123" ":" = ["[2001"; "db8"; ""; "1]"; "5123"].
Proof. reflexivity. Qed.

Example Split_no_separator : Split "localhost" ":" = ["localhost"].
Proof. reflexivity. Qed.

Example Split_empty : Split "" ":" = [""].
Proof. reflexivity. Qed.

Example convertErr_nil : convertErr None = XChainErrorEnum_UNKNOW_ERROR.
Proof. reflexivity. Qed.

Example convertErr_registered :
  convertErr (Some ErrForbidden) = XChainErrorEnum_CODE 7.
Proof. by vm_compute. Qed.

Example convertErr_unregistered :
  convertErr (Some ErrUnmapped) = XChainErrorEnum_UNKNOW_ERROR.
Proof. by vm_compute. Qed.

(** A served call: the request gets its envelope, the response gets the
    request's correlation id, the node's name and SUCCESS. *)
Example echo_call :
  (UnaryInterceptor (tcpCtx "10.0.0.7:5123") (mkMessage None "q")
     "/pb.Xendorser/EndorserCall" echoHandler freshServer).1
  = Val (Some (mkMessage (Some (mkHeader "logid-0" "node-a" XChainErrorEnum_SUCCESS))
                         "q"),
         None).
Proof. by vm_compute. Qed.

(** The handler of a call from an IPv6 peer sees [[2001] as client address. *)
Example ipv6_peer_is_cut_at_first_colon :
  (UnaryInterceptor (tcpCtx "[2001:db8::1]:5123") (mkMessage None "q")
     "/pb.Xendorser/EndorserCall" whoamiHandler freshServer).1
  = Val (Some (mkMessage (Some (mkHeader "logid-0" "node-a" XChainErrorEnum_SUCCESS))
                         "[2001"),
         None).
Proof. by vm_compute. Qed.

(** A call without peer metadata, with a handler that would have served it. *)
Example call_without_peer :
  (UnaryInterceptor (mkContext None None) (mkMessage None "q")
     "/pb.Xendorser/EndorserCall" echoHandler freshServer).1
  = Val (None, None).
Proof. by vm_compute. Qed.

(** A handler that returns a nil response with its error: the reflection on
    the response panics, the error is still returned. *)
Example nil_response_with_error :
  (UnaryInterceptor (tcpCtx "10.0.0.7:5123") (mkMessage None "q")
     "/pb.Xendorser/EndorserCall"
     (fun _ _ => HReturn None (Some (Errorf "boom"))) freshServer).1
  = Val (None, Some (Errorf "boom")).
Proof. by vm_compute. Qed.

(** [getClient] alone: the first call dials and caches, the second is served
    from the cache. *)
Example getClient_twice :
  let '(r1, sh1) := @getClient dialOk "peer:1" emptyShared in
  let '(r2, sh2) := @getClient dialOk "peer:1" sh1 in
  r1 = Some (Some 0, None) /\ r2 = Some (Some 0, None)
  /\ dials sh2 = [("peer:1", Some 0)] /\ mutex sh2 = false.
Proof. by vm_compute. Qed.

(** A failed dial caches nothing, and the next call dials again. *)
Example getClient_retry :
  let '(r1, sh1) := @getClient dialFlaky "peer:1" emptyShared in
  let '(r2, sh2) := @getClient dialFlaky "peer:1" sh1 in
  r1 = Some (None, Some (Errorf "dial failed"))
  /\ clientCache sh1 !! "peer:1" = None
  /\ r2 = Some (Some 1, None)
  /\ clientCache sh2 !! "peer:1" = Some 1
  /\ dials sh2 = [("peer:1", None); ("peer:1", Some 1)].
Proof. by vm_compute. Qed.

(** A call that finds the mutex held does not return. *)
Example getClient_blocked :
  (@getClient dialOk "peer:1" (mkShared ∅ true [])).1 = None.
Proof. by vm_compute. Qed.

(** A termination signal, then both subsystems stop: both exits were
    requested, the engine's completion was counted, the service's was not. *)
Example signal_then_both_complete :
  StartupXuperos [RecvSigChan; EngineStartReturns; ServRunReturns; RecvEngChan]
  = Some (mkOrch 1 false false false true 1 2 false false).
Proof. reflexivity. Qed.

(** After that, [wg.Wait()] cannot return. *)
Example signal_then_both_complete_no_return :
  StartupXuperos [RecvSigChan; EngineStartReturns; ServRunReturns; RecvEngChan;
                  WaitReturns]
  = None.
Proof. reflexivity. Qed.

(** * More of the interceptor *)

Section InterceptorMore.
Context `{Collaborators}.

(** X1.  A request that arrives with an envelope and a correlation id is not
    written at all, and no identifier is drawn from the generator. *)
Theorem envelope_with_logid_is_left_alone
    (ctx : Context) (req : Message) (h : Header) (FullMethod : string)
    (handler : UnaryHandler) (s : Server) :
  msgHeader req = Some h ->
  Logid h <> "" ->
  let final := (UnaryInterceptor ctx req FullMethod handler s).2 in
  reqObj final = req /\ genCount (srv final) = genCount s.
Proof.
  intros Hh Hid final. subst final. split.
  - rewrite request_after_call. unfold headerFilled. rewrite Hh.
    by destruct (String.eqb_spec (Logid h) "").
  - unfold_m. destruct req as [h' b]. simpl in *. subst h'. simpl.
    destruct (String.eqb_spec (Logid h) "") as [E|_]; [done |].
    simpl. crush_call.
Qed.

(** X2.  The handler is consulted at most once, on the request as the header
    phase left it and on a context that carries the request context made of
    the request's correlation id and the peer's address.  Two handlers that
    agree there give the same call; where no request context can be built
    the handler plays no part. *)
Theorem handler_is_consulted_on_the_request_context
    (ctx : Context) (req : Message) (FullMethod : string)
    (handler1 handler2 : UnaryHandler) (s : Server) :
  let req' := headerFilled req (genCount s) in
  let lid := GetLogid (msgHeader req') in
  (forall ip, getClietIP ctx = Val (ip, None) ->
              newReqCtxErr lid ip = None ->
              handler1 (WithReqCtx ctx (Some (mkReqCtx lid ip))) req'
              = handler2 (WithReqCtx ctx (Some (mkReqCtx lid ip))) req') ->
  UnaryInterceptor ctx req FullMethod handler1 s
  = UnaryInterceptor ctx req FullMethod handler2 s.
Proof.
  intros req' lid Hext. subst req' lid. revert Hext.
  unfold_m. unfold headerFilled, setLogid, setHeader, WithReqCtx.
  destruct (getClietIP ctx) as [[ip [e|]]|v]; simpl.
  - destruct req as [[h|] b]; simpl; crush_call.
  - destruct req as [[h|] b]; simpl.
    + destruct (String.eqb (Logid h) ""); simpl; intros Hext;
        (destruct (newReqCtxErr _ ip) eqn:Hn; simpl; [done |]);
        by rewrite (Hext ip eq_refl Hn).
    + destruct (String.eqb (GenLogId (genCount s)) ""); simpl; intros Hext;
        (destruct (newReqCtxErr _ ip) eqn:Hn; simpl; [done |]);
        by rewrite (Hext ip eq_refl Hn).
  - destruct req as [[h|] b]; simpl; crush_call.
Qed.

(** X3.  Whenever the handler is reached and returns, the interceptor returns
    the handler's error as it is, and the handler's response: nil when it was
    nil, untouched when it already had an envelope, and with the new
    envelope when it had none. *)
Theorem response_and_error_pass_through
    (ctx : Context) (req : Message) (FullMethod : string)
    (handler : UnaryHandler) (s : Server)
    (ip : string) (resp : option Message) (e : option error) :
  let out := UnaryInterceptor ctx req FullMethod handler s in
  let req' := reqObj out.2 in
  let lid := GetLogid (msgHeader req') in
  getClietIP ctx = Val (ip, None) ->
  newReqCtxErr lid ip = None ->
  handler (WithReqCtx ctx (Some (mkReqCtx lid ip))) req' = HReturn resp e ->
  out.1 = Val (attachHeader (mkHeader lid GetHostName (statusOf e)) resp, e).
Proof.
  intros out req' lid Hip Hn Hh.
  subst out req' lid. revert Hn Hh. rewrite request_after_call.
  unfold_m.
  unfold headerFilled, statusOf, genTraceId, attachHeader, setLogid, setHeader,
    WithReqCtx.
  rewrite Hip. destruct req as [[h|] b]; simpl.
  - destruct (String.eqb (Logid h) ""); simpl;
      intros Hn Hh; rewrite Hn; simpl; rewrite Hh; simpl; crush_call.
  - destruct (String.eqb (GenLogId (genCount s)) ""); simpl;
      intros Hn Hh; rewrite Hn; simpl; rewrite Hh; simpl; crush_call.
Qed.

(** X4.  A call whose handler returns a response, with an error that casts
    to a standard error (or none), adds exactly two lines to the log, both on
    the logger of the request's correlation id: the access line, then the
    completion line, which repeats the access fields and adds status, error
    code, error message and elapsed time. *)
Theorem served_call_logs_access_then_done
    (ctx : Context) (req : Message) (FullMethod : string)
    (handler : UnaryHandler) (s : Server)
    (ip : string) (m : Message) (e : option error) (se : StdError) :
  let out := UnaryInterceptor ctx req FullMethod handler s in
  let req' := reqObj out.2 in
  let lid := GetLogid (msgHeader req') in
  let fields := [("from", VStr (GetFromNode (msgHeader req')));
                 ("client_ip", VStr ip); ("rpc_method", VStr FullMethod)] in
  getClietIP ctx = Val (ip, None) ->
  newReqCtxErr lid ip = None ->
  handler (WithReqCtx ctx (Some (mkReqCtx lid ip))) req' = HReturn (Some m) e ->
  match e with Some e' => CastError e' | None => Some ErrSuccess end = Some se ->
  logs (srv out.2) =
    (logs s ++
     [mkLog (Some lid) LTrace "access request" fields;
      mkLog (Some lid) LInfo "request done"
            (fields ++ [("status", VInt (Status se)); ("err_code", VInt (Code se));
                        ("err_msg", VStr (Msg se)); ("cost_time", VStr timerPrint)])])%list.
Proof.
  intros out req' lid fields Hip Hn Hh Hse.
  subst out req' lid fields. revert Hn Hh. rewrite request_after_call.
  unfold_m. unfold headerFilled, setLogid, setHeader, WithReqCtx.
  rewrite Hip. destruct req as [[h|] b]; simpl.
  - destruct (String.eqb (Logid h) ""); simpl;
      intros Hn Hh; rewrite Hn; simpl; rewrite Hh; simpl; rewrite Hse;
      destruct (msgHeader m); simpl; by rewrite <- app_assoc.
  - destruct (String.eqb (GenLogId (genCount s)) ""); simpl;
      intros Hn Hh; rewrite Hn; simpl; rewrite Hh; simpl; rewrite Hse;
      destruct (msgHeader m); simpl; by rewrite <- app_assoc.
Qed.

Lemma logs_grow_intro (l0 l l' : list LogEntry) :
  l' = (l0 ++ l)%list -> l <> [] ->
  exists l1, l1 <> [] /\ l' = (l0 ++ l1)%list.
Proof. intros -> Hl. by exists l. Qed.

(** X5.  No call goes unlogged and no call removes a line: whatever the
    context, the request and the handler, the log after the call is the log
    before it followed by at least one new line. *)
Theorem every_call_is_logged
    (ctx : Context) (req : Message) (FullMethod : string)
    (handler : UnaryHandler) (s : Server) :
  exists l, l <> [] /\
    logs (srv (UnaryInterceptor ctx req FullMethod handler s).2)
    = (logs s ++ l)%list.
Proof.
  unfold_m. destruct req as [[h|] b]; simpl.
  - destruct (String.eqb (Logid h) ""); simpl; crush_call;
      (simpl; eapply logs_grow_intro; [rewrite <- ?app_assoc; reflexivity | done]).
  - destruct (String.eqb (GenLogId (genCount s)) ""); simpl; crush_call;
      (simpl; eapply logs_grow_intro; [rewrite <- ?app_assoc; reflexivity | done]).
Qed.

(** X6.  [getClietIP] never panics (index 0 of the split address always
    exists).  It returns an error exactly when the context has no peer or
    the peer has no address, and then the address it returns is empty. *)
Theorem getClietIP_fails_only_without_address (gctx : Context) :
  exists ip e, getClietIP gctx = Val (ip, e)
    /\ (e = None <-> exists pr a, ctxPeer gctx = Some pr /\ Addr pr = Some a)
    /\ (e <> None -> ip = "").
Proof.
  unfold getClietIP. destruct (ctxPeer gctx) as [[[a|]]|]; simpl.
  - destruct (Split_nonempty a ":") as (w & ws & ->). simpl.
    exists w, None. split; [done |]. split; [| done].
    split; [intros _; by eauto | done].
  - eexists _, _. split; [done |]. split; [| done].
    split; [done |]. by intros (pr & a & [= <-] & ?).
  - eexists _, _. split; [done |]. split; [| done].
    split; [done |]. by intros (pr & a & ? & _).
Qed.

(** X7.  [createReqCtx] never panics and writes nothing but the log: the
    request, the results and the identifier generator are as before.  It
    returns either a context and no error, having logged nothing, or no
    context and an error, having added exactly one error line on the
    server's logger. *)
Theorem createReqCtx_fails_with_one_log_line
    (gctx : Context) (reqHeader : option Header) (c : Call) :
  exists rc err c',
    createReqCtx gctx reqHeader c = (Val (rc, err), c')
    /\ reqObj c' = reqObj c /\ respRes c' = respRes c /\ retErr c' = retErr c
    /\ genCount (srv c') = genCount (srv c)
    /\ (err = None -> c' = c /\ rc <> None)
    /\ (err <> None ->
        rc = None /\
        exists line, logOwner line = None /\ logLevel line = LError
                     /\ logs (srv c') = (logs (srv c) ++ [line])%list).
Proof.
  destruct (getClietIP_fails_only_without_address gctx) as (ip & e & Hip & _ & _).
  unfold_m. rewrite Hip. destruct c as [[n lg] rq rs re]. destruct e as [e|]; simpl.
  - eexists _, _, _. split; [done |]. simpl. split_and!; try done.
    intros _. split; [done |]. eexists (mkLog None LError _ _). by split_and!.
  - destruct (newReqCtxErr (GetLogid reqHeader) ip) as [e|]; simpl.
    + eexists _, _, _. split; [done |]. simpl. split_and!; try done.
      intros _. split; [done |]. eexists (mkLog None LError _ _). by split_and!.
    + eexists _, _, _. split; [done |]. simpl. split_and!; try done.
Qed.

End InterceptorMore.

(** * More of the connection cache *)

Section HostSelection.
Context `{RandSource}.

(** X8.  [getHost] over an empty list of endorsers returns the empty host,
    which [getClient] rejects without dialing; over a non-empty list, with a
    generator that keeps within its range, it returns one of the configured
    hosts and does not panic. *)
Theorem getHost_picks_a_configured_host
    (now : Z) (hosts : list string) :
  (forall seed n, 0 < n -> Intn seed n < n) ->
  (hosts = [] ->
     getHost now hosts = Val ""
     /\ forall (T : Transport) (sh : Shared),
          getClient "" sh = (Some (None, Some (Errorf "empty host")), sh))
  /\ (hosts <> [] -> exists h, getHost now hosts = Val h /\ h ∈ hosts).
Proof.
  intros Hrange. split.
  - intros ->. by split.
  - intros Hne. unfold getHost.
    assert (Hlen : 0 < length hosts) by (destruct hosts; [done | simpl; lia]).
    destruct (Nat.ltb_spec 0 (length hosts)) as [_|?]; [| lia].
    destruct (lookup_lt_is_Some_2 hosts (Intn now (length hosts))) as [h Hh];
      [by apply Hrange |].
    rewrite Hh. exists h. split; [done |]. by eapply list_elem_of_lookup_2.
Qed.

End HostSelection.

Section CacheSequential.
Context `{Transport}.

(** X9.  The fast path takes no lock: a call for a cached host returns the
    cached client and leaves cache, mutex and dial history as they are, even
    while another task holds the mutex. *)
Theorem getClient_cached_is_lock_free (h : string) (c : nat) (sh : Shared) :
  h <> "" ->
  clientCache sh !! h = Some c ->
  getClient h sh = (Some (Some c, None), sh).
Proof.
  intros Hne Hc. unfold getClient, runTask, taskStep. simpl.
  destruct (String.eqb_spec h "") as [?|_]; [done |]. by rewrite Hc.
Qed.

(** X10.  A call that misses, finds the mutex free and dials with success
    returns the new client, caches it under its host only, releases the
    mutex and records one dial; the same call made again returns the same
    client and changes nothing. *)
Theorem getClient_caches_what_it_dials (h : string) (sh : Shared) :
  h <> "" ->
  clientCache sh !! h = None ->
  mutex sh = false ->
  grpcDial h (length (dials sh)) = None ->
  let n := length (dials sh) in
  let sh1 := (getClient h sh).2 in
  (getClient h sh).1 = Some (Some n, None)
  /\ clientCache sh1 !! h = Some n
  /\ (forall h', h' <> h -> clientCache sh1 !! h' = clientCache sh !! h')
  /\ mutex sh1 = false
  /\ dials sh1 = (dials sh ++ [(h, Some n)])%list
  /\ getClient h sh1 = (Some (Some n, None), sh1).
Proof.
  intros Hne Hc Hm Hd n sh1.
  assert (Hrun : getClient h sh =
            (Some (Some n, None),
             mkShared (<[h:=n]> (clientCache sh)) false
                      (dials sh ++ [(h, Some n)]))).
  { unfold getClient, runTask, taskStep. simpl.
    destruct (String.eqb_spec h "") as [?|_]; [done |].
    rewrite Hc. simpl. rewrite Hm. simpl. rewrite Hc. simpl. by rewrite Hd. }
  subst sh1. rewrite Hrun. simpl. split_and!; try done.
  - by rewrite lookup_insert_eq.
  - intros h' Hh'. by rewrite lookup_insert_ne.
  - unfold getClient, runTask, taskStep. simpl.
    destruct (String.eqb_spec h "") as [?|_]; [done |].
    by rewrite lookup_insert_eq.
Qed.

(** A call that misses with the mutex free dials exactly once. *)
Lemma getClient_miss_dials_once (h : string) (sh : Shared) :
  h <> "" ->
  clientCache sh !! h = None ->
  mutex sh = false ->
  length (dials (getClient h sh).2) = S (length (dials sh)).
Proof.
  intros Hne Hc Hm. unfold getClient, runTask, taskStep. simpl.
  destruct (String.eqb_spec h "") as [?|_]; [done |].
  rewrite Hc. simpl. rewrite Hm. simpl. rewrite Hc. simpl.
  destruct (grpcDial h (length (dials sh))); simpl; rewrite length_app;
    simpl; lia.
Qed.

(** X11.  A call whose dial fails returns the dial's error, caches nothing
    and releases the mutex, so that the next call for the host dials
    again. *)
Theorem getClient_failed_dial_is_retried (h : string) (e : error) (sh : Shared) :
  h <> "" ->
  clientCache sh !! h = None ->
  mutex sh = false ->
  grpcDial h (length (dials sh)) = Some e ->
  let sh1 := (getClient h sh).2 in
  (getClient h sh).1 = Some (None, Some e)
  /\ clientCache sh1 = clientCache sh
  /\ mutex sh1 = false
  /\ dials sh1 = (dials sh ++ [(h, None)])%list
  /\ length (dials (getClient h sh1).2) = S (length (dials sh1)).
Proof.
  intros Hne Hc Hm Hd sh1.
  assert (Hrun : getClient h sh =
            (Some (None, Some e),
             mkShared (clientCache sh) false (dials sh ++ [(h, None)]))).
  { unfold getClient, runTask, taskStep. simpl.
    destruct (String.eqb_spec h "") as [?|_]; [done |].
    rewrite Hc. simpl. rewrite Hm. simpl. rewrite Hc. simpl. by rewrite Hd. }
  subst sh1. rewrite Hrun. simpl. split_and!; try done.
  by apply getClient_miss_dials_once.
Qed.

(** X12.  Between calls the server stays consistent: a call made while the
    mutex is free always returns, and it leaves the mutex free and the cache
    in agreement with the connections established (each cached host has
    exactly its cached connection, every other host none). *)
Theorem getClient_keeps_the_server_consistent (h : string) (sh : Shared) :
  consistent sh ->
  (exists r, (getClient h sh).1 = Some r) /\ consistent (getClient h sh).2.
Proof.
  intros [Hm Hco]. unfold getClient, runTask, taskStep. simpl.
  destruct (String.eqb_spec h "") as [->|Hne]; simpl.
  { split; [by eauto | by split]. }
  destruct (clientCache sh !! h) as [c|] eqn:Hc; simpl.
  { split; [by eauto | by split]. }
  rewrite Hm. simpl. rewrite Hc. simpl.
  destruct (grpcDial h (length (dials sh))) as [e|] eqn:Hd; simpl.
  - split; [by eauto |]. split; [done |]. intros h'. simpl.
    by rewrite established_snoc_None.
  - split; [by eauto |]. split; [done |]. intros h'. simpl.
    destruct (decide (h = h')) as [<-|Hh'].
    + by rewrite lookup_insert_eq, established_snoc_eq, Hco, Hc.
    + by rewrite lookup_insert_ne, established_snoc_ne, Hco.
Qed.

End CacheSequential.

(** * More of the concurrent calls *)

Section PoolMore.
Context `{Transport}.

Lemma reachable_Inv (ts : list Task) (sh : Shared) (p : Pool) :
  Forall (fun t => pc t = PcEntry) ts -> consistent sh ->
  rtc Step (mkPool ts sh) p -> Inv p.
Proof. intros Hts Hco Hrtc. eapply Inv_rtc; [done |]. by apply Inv_init. Qed.

(** X13.  The mutex guards the critical section: among calls for any mix of
    hosts, at every moment at most one task is between [Lock] and its
    deferred [Unlock], and the mutex is held exactly when there is one. *)
Theorem mutex_guards_the_dial (ts : list Task) (sh : Shared) (p : Pool) :
  Forall (fun t => pc t = PcEntry) ts ->
  consistent sh ->
  rtc Step (mkPool ts sh) p ->
  (forall i j ti tj,
     tasks p !! i = Some ti -> tasks p !! j = Some tj ->
     inCritical ti = true -> inCritical tj = true -> i = j)
  /\ (mutex (shared p) = true <->
      exists i t, tasks p !! i = Some t /\ inCritical t = true).
Proof.
  intros Hts Hco Hrtc. pose proof (reachable_Inv _ _ _ Hts Hco Hrtc) as HI.
  split; [by apply (inv_excl _ HI) |]. split; [by apply (inv_held _ HI) |].
  intros (i & t & Hi & Hcr). by eapply (inv_mutex _ HI).
Qed.

Lemma step_keeps_cached (i : nat) (p q : Pool) (h : string) (c : nat) :
  Inv p -> poolStep i p = Some q ->
  clientCache (shared p) !! h = Some c -> clientCache (shared q) !! h = Some c.
Proof.
  intros HI Hs Hc. unfold poolStep in Hs.
  destruct (tasks p !! i) as [t|] eqn:Hi; [| done].
  destruct (taskStep t (shared p)) as [[t' sh']|] eqn:Ht; [| done].
  simplify_eq/=. unfold taskStep in Ht.
  destruct (pc t) as [| | | | c' | r | r] eqn:Hp;
    repeat case_match; simplify_eq/=; try done.
  destruct (inv_store _ HI _ _ _ Hi Hp) as [Hnone _].
  rewrite lookup_insert_ne; [done |]. intros Heq. congruence.
Qed.

(** X14.  A cache entry is never replaced or removed: once a host is cached,
    every later state has the same client for it. *)
Theorem cache_entries_are_permanent
    (ts : list Task) (sh : Shared) (p p' : Pool) (h : string) (c : nat) :
  Forall (fun t => pc t = PcEntry) ts ->
  consistent sh ->
  rtc Step (mkPool ts sh) p ->
  rtc Step p p' ->
  clientCache (shared p) !! h = Some c ->
  clientCache (shared p') !! h = Some c.
Proof.
  intros Hts Hco Hrtc Hpp'. pose proof (reachable_Inv _ _ _ Hts Hco Hrtc) as HI.
  clear Hrtc. induction Hpp' as [|p q r Hpq _ IH]; [done |].
  intros Hc. destruct Hpq as [i p q Hs]. apply IH.
  - by eapply Inv_step.
  - by eapply step_keeps_cached.
Qed.

(** X15.  Callers of the same host share one client: two calls that returned
    a client for the same host returned the same one, the one in the cache
    and the only connection established to that host. *)
Theorem same_host_same_client
    (ts : list Task) (sh : Shared) (p : Pool) (t1 t2 : Task) (c1 c2 : nat) :
  Forall (fun t => pc t = PcEntry) ts ->
  consistent sh ->
  rtc Step (mkPool ts sh) p ->
  t1 ∈ tasks p -> t2 ∈ tasks p ->
  pc t1 = PcDone (Some c1, None) -> pc t2 = PcDone (Some c2, None) ->
  host t1 = host t2 ->
  c1 = c2
  /\ clientCache (shared p) !! host t1 = Some c1
  /\ established (host t1) (shared p) = [c1].
Proof.
  intros Hts Hco Hrtc Ht1 Ht2 Hp1 Hp2 Hh.
  pose proof (reachable_Inv _ _ _ Hts Hco Hrtc) as HI.
  apply list_elem_of_lookup in Ht1 as [i1 Hi1].
  apply list_elem_of_lookup in Ht2 as [i2 Hi2].
  assert (Hc : forall i t c, tasks p !! i = Some t -> pc t = PcDone (Some c, None) ->
             clientCache (shared p) !! host t = Some c).
  { intros i t c Hi Hp.
    assert (Hr : result t = Some (Some c, None)) by (unfold result; by rewrite Hp).
    destruct (inv_done _ HI _ _ _ Hi Hr) as [(c' & Heq & ?)|(e & Heq & _)];
      by simplify_eq. }
  pose proof (Hc _ _ _ Hi1 Hp1) as Hc1. pose proof (Hc _ _ _ Hi2 Hp2) as Hc2.
  rewrite <- Hh in Hc2. split; [congruence |]. split; [done |].
  by apply (inv_cached _ HI).
Qed.

(** *** Counting connections *)

Lemma dialed_iff_established (h : string) (sh : Shared) :
  h ∈ dialedHosts sh <-> established h sh <> [].
Proof.
  unfold dialedHosts, established. induction (dials sh) as [|[h' o] ds IH];
    simpl; [by rewrite elem_of_nil |].
  destruct o as [c|]; simpl.
  - destruct (String.eqb_spec h' h) as [->|Hne]; simpl.
    + split; [done | intros _; by left].
    + rewrite elem_of_cons, IH. split; [by intros [?|?] | by right].
  - by destruct (String.eqb h' h).
Qed.

Lemma dialedHosts_NoDup (sh : Shared) :
  (forall h, length (established h sh) <= 1) -> NoDup (dialedHosts sh).
Proof.
  intros Hle.
  assert (Hgen : forall ds : list (string * option nat),
    (forall h, length (established h (mkShared ∅ false ds)) <= 1) ->
    NoDup (dialedHosts (mkShared ∅ false ds))).
  { clear. induction ds as [|[h' o] ds IH]; intros Hle; [by constructor |].
    assert (Hrest : forall h, length (established h (mkShared ∅ false ds)) <= 1).
    { intros h. specialize (Hle h). unfold established in *. csimpl in Hle.
      destruct (String.eqb h' h), o; csimpl in *; lia. }
    unfold dialedHosts. csimpl. destruct o as [c|]; csimpl; [| by apply IH].
    constructor; [| by apply IH].
    intros Hin. apply (dialed_iff_established h' (mkShared ∅ false ds)) in Hin.
    specialize (Hle h'). unfold established in *. csimpl in Hle.
    rewrite String.eqb_refl in Hle. csimpl in Hle. simpl in Hin.
    destruct (omap _ ds); [done | simpl in Hle; lia]. }
  by apply (Hgen (dials sh)).
Qed.

Lemma taskStep_dials (t t' : Task) (sh sh' : Shared) :
  taskStep t sh = Some (t', sh') ->
  dials sh' = dials sh \/ exists o, dials sh' = (dials sh ++ [(host t, o)])%list.
Proof.
  unfold taskStep. intros Hs.
  repeat (case_match; simplify_eq/=); by eauto.
Qed.

Lemma dials_come_from_tasks (p p' : Pool) :
  rtc Step p p' ->
  (forall d, d ∈ dials (shared p) -> d.1 ∈ host <$> tasks p) ->
  forall d, d ∈ dials (shared p') -> d.1 ∈ host <$> tasks p'.
Proof.
  induction 1 as [|p q r Hpq Hqr IH]; [done |].
  intros Hp. apply IH. intros d Hd.
  destruct Hpq as [i p q Hs].
  assert (Hhosts : host <$> tasks q = host <$> tasks p).
  { apply Step_hosts. eapply rtc_once. by econstructor. }
  rewrite Hhosts. unfold poolStep in Hs.
  destruct (tasks p !! i) as [t|] eqn:Hi; [| done].
  destruct (taskStep t (shared p)) as [[t' sh']|] eqn:Ht; [| done].
  simplify_eq/=.
  destruct (taskStep_dials _ _ _ _ Ht) as [Heq|[o Heq]]; rewrite Heq in Hd.
  - by apply Hp.
  - apply elem_of_app in Hd as [Hd|Hd]; [by apply Hp |].
    apply list_elem_of_singleton in Hd as ->. simpl.
    apply list_elem_of_fmap_2. by eapply list_elem_of_lookup_2.
Qed.

(** X16.  On a new server, however many calls run concurrently and whatever
    hosts of the configured list they ask for, the connections established
    go to distinct hosts of that list: there are never more of them than
    there are distinct configured hosts. *)
Theorem connections_bounded_by_hosts
    (hosts : list string) (ts : list Task) (p : Pool) :
  Forall (fun t => pc t = PcEntry /\ host t ∈ hosts) ts ->
  rtc Step (mkPool ts (cacheState (NewRpcServ hosts))) p ->
  NoDup (dialedHosts (shared p))
  /\ (forall h, h ∈ dialedHosts (shared p) -> h ∈ hosts)
  /\ length (dialedHosts (shared p)) <= length (remove_dups hosts).
Proof.
  intros Hts Hrtc.
  assert (Hentry : Forall (fun t => pc t = PcEntry) ts).
  { eapply Forall_impl; [done |]. by intros t [? _]. }
  assert (Hco : consistent (cacheState (NewRpcServ hosts))).
  { split; [done |]. intros h. unfold established. simpl.
    by rewrite lookup_empty. }
  pose proof (reachable_Inv _ _ _ Hentry Hco Hrtc) as HI.
  assert (Hnd : NoDup (dialedHosts (shared p))).
  { apply dialedHosts_NoDup. intros h. by apply Inv_at_most_one. }
  assert (Hin : forall h, h ∈ dialedHosts (shared p) -> h ∈ hosts).
  { intros h Hh. unfold dialedHosts in Hh.
    apply list_elem_of_omap in Hh as ([h' o] & Hd & Ho).
    destruct o as [c|]; simplify_eq/=.
    pose proof (dials_come_from_tasks _ _ Hrtc) as Hfrom. simpl in Hfrom.
    specialize (Hfrom ltac:(intros d Hd'; by apply elem_of_nil in Hd') _ Hd).
    simpl in Hfrom. rewrite (Step_hosts _ _ Hrtc) in Hfrom. simpl in Hfrom.
    apply list_elem_of_fmap in Hfrom as (t & -> & Ht).
    by apply (proj1 (Forall_forall _ _) Hts t Ht). }
  split; [done |]. split; [done |].
  apply submseteq_length, NoDup_submseteq; [done |].
  intros h Hh. apply elem_of_remove_dups. by apply Hin.
Qed.

(** *** Bounded work *)

Lemma remainingAll_entry (ts : list Task) (sh : Shared) :
  Forall (fun t => pc t = PcEntry) ts ->
  remainingAll (mkPool ts sh) = 6 * length ts.
Proof.
  unfold remainingAll. simpl. induction 1 as [|t ts Ht _ IH]; simpl; [done |].
  unfold remaining at 1. rewrite Ht, IH. lia.
Qed.

(** X17.  A call takes at most six atomic steps: whatever the interleaving,
    [N] calls are over after at most [6 * N] steps in all, and until then
    some task can always move, so that no call waits for ever. *)
Theorem calls_end_within_six_steps_each
    (ts : list Task) (sh : Shared) (p : Pool) (n : nat) :
  Forall (fun t => pc t = PcEntry) ts ->
  consistent sh ->
  nsteps Step n (mkPool ts sh) p ->
  n <= 6 * length ts
  /\ (forallb isDone (tasks p) = false -> exists p', Step p p').
Proof.
  intros Hts Hco Hn.
  assert (Hbound : forall m q r, nsteps Step m q r ->
            m + remainingAll r <= remainingAll q).
  { clear. induction 1 as [|m q r s Hqr _ IH]; [lia |].
    destruct Hqr as [i q r Hs]. apply poolStep_remaining in Hs. lia. }
  split.
  - specialize (Hbound _ _ _ Hn). rewrite remainingAll_entry in Hbound by done.
    lia.
  - intros Hnd.
    assert (HI : Inv p).
    { eapply reachable_Inv; [done | done |]. by eapply rtc_nsteps_2. }
    destruct (progress p HI Hnd) as (i & p' & Hs).
    exists p'. by econstructor.
Qed.

End PoolMore.

(** * More of the startup *)

Lemma occurrences_cons (e x : Event) (tr : list Event) :
  occurrences e (x :: tr) = (if decide (x = e) then 1 else 0) + occurrences e tr.
Proof.
  unfold occurrences. rewrite filter_cons. by destruct (decide (x = e)).
Qed.

(** Nothing happens after the return or after a crash. *)
Lemma orchRun_stopped (tr : list Event) (o o' : Orch) :
  returned o || crashed o = true -> orchRun tr o = Some o' -> tr = [] /\ o' = o.
Proof.
  intros Hstop. destruct tr as [|e tr]; simpl; [by intros [= ->] |].
  unfold orchStep. by rewrite Hstop.
Qed.

(** What one event does to the counters. *)
Lemma orchStep_account (e : Event) (o o1 : Orch) :
  orchStep e o = Some o1 -> (0 <= wg o)%Z ->
  servExitCalls o1
    = servExitCalls o + occurrences RecvSigChan [e] + occurrences RecvEngChan [e]
  /\ engineExitCalls o1
    = engineExitCalls o + occurrences RecvSigChan [e] + occurrences RecvRpcChan [e]
  /\ (0 <= wg o1)%Z
  /\ (crashed o1 = false ->
      wg o1 = (wg o - Z.of_nat (occurrences RecvEngChan [e]
                                + occurrences RecvRpcChan [e]))%Z)
  /\ (returned o1 = true -> wg o1 = 0%Z /\ crashed o1 = false)
  /\ (crashed o1 = true ->
      wg o = 0%Z /\ wg o1 = 0%Z
      /\ occurrences RecvEngChan [e] + occurrences RecvRpcChan [e] = 1).
Proof.
  unfold orchStep. destruct (returned o) eqn:Hr, (crashed o) eqn:Hc; try done.
  simpl. intros Hs Hwg.
  destruct e; unfold wgDone, servExit, engineExit in Hs;
    repeat case_match; simplify_eq/=; unfold occurrences; simpl;
    split_and!; try done; try lia; try (intros; congruence).
Qed.

Lemma occurrences_one (e x : Event) :
  occurrences e [x] = if decide (x = e) then 1 else 0.
Proof. rewrite occurrences_cons. unfold occurrences. simpl. lia. Qed.

Lemma orchRun_account (tr : list Event) (o o' : Orch) :
  orchRun tr o = Some o' -> (0 <= wg o)%Z ->
  servExitCalls o'
    = servExitCalls o + occurrences RecvSigChan tr + occurrences RecvEngChan tr
  /\ engineExitCalls o'
    = engineExitCalls o + occurrences RecvSigChan tr + occurrences RecvRpcChan tr
  /\ (0 <= wg o')%Z
  /\ (crashed o = false -> crashed o' = false ->
      wg o' = (wg o - Z.of_nat (occurrences RecvEngChan tr
                                + occurrences RecvRpcChan tr))%Z)
  /\ (returned o = false -> returned o' = true ->
      wg o' = 0%Z /\ crashed o' = false)
  /\ (crashed o = false -> crashed o' = true ->
      Z.of_nat (occurrences RecvEngChan tr + occurrences RecvRpcChan tr)
      = (wg o + 1)%Z /\ wg o' = 0%Z).
Proof.
  revert o. induction tr as [|e tr IH]; intros o Hrun Hwg.
  - simpl in Hrun. simplify_eq. unfold occurrences. simpl.
    split_and!; try done; try lia; congruence.
  - simpl in Hrun. destruct (orchStep e o) as [o1|] eqn:Hs; [| done].
    destruct (orchStep_account _ _ _ Hs Hwg)
      as (Hse & Hee & Hw1 & Hwg1 & Hret1 & Hcr1).
    destruct (IH _ Hrun Hw1) as (Hs' & He' & Hw' & Hwg' & Hret' & Hcr').
    rewrite !occurrences_one in Hse, Hee, Hwg1, Hcr1.
    rewrite !(occurrences_cons _ e tr).
    split_and!; try done.
    + rewrite Hs', Hse.
      destruct (decide (e = RecvSigChan)), (decide (e = RecvEngChan)); simpl; lia.
    + rewrite He', Hee.
      destruct (decide (e = RecvSigChan)), (decide (e = RecvRpcChan)); simpl; lia.
    + intros Hc Hc'.
      destruct (crashed o1) eqn:Hc1.
      { destruct (orchRun_stopped tr o1 o') as [_ ->]; [| done |];
          [by rewrite Hc1, orb_true_r | congruence]. }
      rewrite (Hwg' eq_refl Hc'), (Hwg1 eq_refl).
      destruct (decide (e = RecvEngChan)), (decide (e = RecvRpcChan)); simpl; lia.
    + intros Hr Hr'.
      destruct (returned o1) eqn:Hr1; [| by apply Hret'].
      destruct (orchRun_stopped tr o1 o') as [_ ->]; [by rewrite Hr1 | done |].
      by apply Hret1.
    + intros Hc Hc'.
      destruct (crashed o1) eqn:Hc1.
      { destruct (orchRun_stopped tr o1 o') as [-> _];
          [by rewrite Hc1, orb_true_r | done |].
        destruct (orchRun_stopped [] o1 o') as [_ ->];
          [by rewrite Hc1, orb_true_r | done |].
        destruct (Hcr1 eq_refl) as (Hw0 & Hw0' & Hone). unfold occurrences.
        simpl. lia. }
      destruct (Hcr' eq_refl Hc') as [Hcount Hz]. rewrite (Hwg1 eq_refl) in Hcount.
      split; [| done].
      destruct (decide (e = RecvEngChan)), (decide (e = RecvRpcChan)); simpl in *;
        lia.
Qed.

(** Each subsystem returns once, and the engine's channel delivers once. *)
Lemma orchRun_once (tr : list Event) (o o' : Orch) :
  orchRun tr o = Some o' ->
  (engineRunning o = true -> engChanSend o = false) ->
  Nat.b2n (negb (engineRunning o'))
    = Nat.b2n (negb (engineRunning o)) + occurrences EngineStartReturns tr
  /\ Nat.b2n (negb (servRunning o'))
    = Nat.b2n (negb (servRunning o)) + occurrences ServRunReturns tr
  /\ Nat.b2n (engChanSend o') + occurrences RecvEngChan tr
    = Nat.b2n (engChanSend o) + occurrences EngineStartReturns tr.
Proof.
  revert o. induction tr as [|e tr IH]; intros o Hrun Hinv.
  - simpl in Hrun. simplify_eq. unfold occurrences. simpl. lia.
  - simpl in Hrun. destruct (orchStep e o) as [o1|] eqn:Hs; [| done].
    assert (Hinv1 : engineRunning o1 = true -> engChanSend o1 = false).
    { unfold orchStep in Hs. destruct (returned o || crashed o); [done |].
      destruct e; unfold wgDone, servExit, engineExit in Hs;
        repeat case_match; simplify_eq/=; by auto. }
    destruct (IH _ Hrun Hinv1) as (He & Hsv & Hch). clear IH Hrun Hinv1.
    rewrite !(occurrences_cons _ e tr).
    unfold orchStep in Hs. destruct (returned o || crashed o); [done |].
    destruct e; unfold wgDone, servExit, engineExit in Hs;
      repeat case_match; simplify_eq/=;
      repeat case_decide; simplify_eq;
      destruct (engineRunning o) eqn:Her, (engChanSend o) eqn:Hec,
               (servRunning o) eqn:Hsr;
      simpl in *; try done; try lia;
      try (specialize (Hinv eq_refl); done).
Qed.

(** X18.  Exit requests are exactly accounted for: [serv.Exit()] has been
    called once per signal received and once for the engine's completion,
    [engine.Exit()] once per signal and once per receive from [rpcChan].
    As the engine's completion arrives at most once, without signals the
    service is asked to exit at most once. *)
Theorem exit_requests_are_counted (tr : list Event) (o : Orch) :
  StartupXuperos tr = Some o ->
  servExitCalls o = occurrences RecvSigChan tr + occurrences RecvEngChan tr
  /\ engineExitCalls o = occurrences RecvSigChan tr + occurrences RecvRpcChan tr
  /\ occurrences RecvEngChan tr <= 1
  /\ (occurrences RecvSigChan tr = 0 -> servExitCalls o <= 1).
Proof.
  unfold StartupXuperos. intros Hrun.
  destruct (orchRun_account _ _ _ Hrun) as (Hs & He & _); [done |].
  destruct (orchRun_once _ _ _ Hrun) as (Hen & _ & Hch); [done |]. simpl in *.
  assert (Hle : occurrences RecvEngChan tr <= 1).
  { destruct (engineRunning o), (engChanSend o); simpl in *; lia. }
  split_and!; try done. lia.
Qed.

Lemma occurrences_pos (e : Event) (tr : list Event) :
  e ∈ tr <-> 0 < occurrences e tr.
Proof.
  induction tr as [|x tr IH].
  - unfold occurrences. simpl. rewrite elem_of_nil. lia.
  - rewrite occurrences_cons, elem_of_cons, IH.
    destruct (decide (x = e)) as [->|Hne]; [split; [lia | by left] |].
    split; [intros [?|?]; [done | lia] | intros ?; right; lia].
Qed.

(** X19.  Each subsystem completes at most once, the subsystem has completed
    exactly when its start routine returned, and the engine's completion is
    received only after [engine.Start()] returned: until it is received the
    engine's goroutine waits in its send. *)
Theorem completion_is_signalled_once (tr : list Event) (o : Orch) :
  StartupXuperos tr = Some o ->
  occurrences EngineStartReturns tr <= 1
  /\ occurrences ServRunReturns tr <= 1
  /\ (engineCompleted o = true <-> EngineStartReturns ∈ tr)
  /\ (servCompleted o = true <-> ServRunReturns ∈ tr)
  /\ occurrences RecvEngChan tr <= occurrences EngineStartReturns tr
  /\ (engChanSend o = true <->
      EngineStartReturns ∈ tr /\ RecvEngChan ∉ tr).
Proof.
  unfold StartupXuperos, engineCompleted, servCompleted. intros Hrun.
  destruct (orchRun_once _ _ _ Hrun) as (Hen & Hsv & Hch); [done |]. simpl in *.
  rewrite !occurrences_pos.
  destruct (engineRunning o), (servRunning o), (engChanSend o); simpl in *;
    split_and!; try lia; (split; [intros; try split; try done; lia |]);
    intros; try done; intuition lia.
Qed.

(** X20.  The barrier counts receives from [engChan] and [rpcChan]: the
    counter stays between 0 and 2 and, as long as the loop has not crashed,
    is 2 less the number of those receives.  The operation returns only
    after exactly two of them, and the loop crashes on a third one, which
    takes at least two receives from [rpcChan]. *)
Theorem barrier_counts_two_receives (tr : list Event) (o : Orch) :
  StartupXuperos tr = Some o ->
  (0 <= wg o <= 2)%Z
  /\ (crashed o = false ->
      wg o = (2 - Z.of_nat (occurrences RecvEngChan tr
                            + occurrences RecvRpcChan tr))%Z)
  /\ (returned o = true ->
      occurrences RecvEngChan tr + occurrences RecvRpcChan tr = 2
      /\ crashed o = false)
  /\ (crashed o = true ->
      occurrences RecvEngChan tr + occurrences RecvRpcChan tr = 3
      /\ 2 <= occurrences RecvRpcChan tr).
Proof.
  unfold StartupXuperos. intros Hrun.
  destruct (orchRun_account _ _ _ Hrun) as (_ & _ & Hw & Hwg & Hret & Hcr);
    [done |].
  destruct (orchRun_once _ _ _ Hrun) as (Hen & _ & Hch); [done |].
  simpl in *.
  assert (Hle : occurrences RecvEngChan tr <= 1).
  { destruct (engineRunning o), (engChanSend o); simpl in *; lia. }
  destruct (crashed o) eqn:Hc.
  - destruct (Hcr eq_refl eq_refl) as [Hcount Hwz].
    split_and!; try done; try lia.
    intros Hr. by destruct (Hret eq_refl Hr) as [_ ?].
  - specialize (Hwg eq_refl eq_refl). split_and!; try done; try lia.
    intros Hr. destruct (Hret eq_refl Hr) as [Hz _]. split; [lia | done].
Qed.

Section StartupMore.
Context `{Boot}.

(** X21.  [StartupXuperos] returns an error only from its prologue, before
    anything is started: a failure of [loadConf] is returned with the log
    not even initialised, the subsystems are started exactly when no error
    is returned, the engine is created only after the log was initialised,
    the service only after the engine.  Once the subsystems are started the
    only value it returns is [nil], after two counted receives. *)
Theorem startup_errors_come_before_the_start
    (envCfgPath : string) (tr : list Event)
    (acts : list BootAction) (r : option (option error)) :
  StartupXuperosFrom envCfgPath tr = (acts, r) ->
  (forall err, loadConf envCfgPath = inr err ->
     acts = [] /\ r = Some (Some err))
  /\ (SubsystemsStarted ∈ acts <-> forall err, r <> Some (Some err))
  /\ (EngineCreated ∈ acts -> exists c d, head acts = Some (InitLog c d))
  /\ (ServiceCreated ∈ acts -> EngineCreated ∈ acts)
  /\ (r = Some None ->
      SubsystemsStarted ∈ acts
      /\ occurrences RecvEngChan tr + occurrences RecvRpcChan tr = 2).
Proof.
  unfold StartupXuperosFrom, startupPrologue.
  destruct (loadConf envCfgPath) as [[envConf servConf]|e0] eqn:Hl; simpl.
  2: { intros [= <- <-]. split_and!; try done.
       - by intros err [= ->].
       - split; [by intros ?%elem_of_nil | intros Hr; by destruct (Hr e0)].
       - by intros ?%elem_of_nil.
       - by intros ?%elem_of_nil. }
  destruct (CreateBCEngine envConf) as [engine|e1]; simpl.
  2: { intros [= <- <-]. split_and!; try done.
       - rewrite elem_of_cons, elem_of_nil.
         split; [by intros [?|?] | intros Hr; by destruct (Hr e1)].
       - rewrite elem_of_cons, elem_of_nil. by intros [?|?].
       - rewrite elem_of_cons, elem_of_nil. by intros [?|?]. }
  destruct (NewServMG servConf engine) as [serv|e2]; simpl.
  2: { intros [= <- <-]. split_and!; try done.
       - rewrite !elem_of_cons, elem_of_nil.
         split; [by intros [?|[?|?]] | intros Hr; by destruct (Hr e2)].
       - intros _. by eauto.
       - rewrite !elem_of_cons, elem_of_nil. by intros [?|[?|?]]. }
  assert (Hin : SubsystemsStarted ∈
            [InitLog (GenConfFilePath envConf (envLogConf envConf))
                     (GenDirAbsPath envConf (envLogDir envConf));
             EngineCreated; ServiceCreated; SubsystemsStarted]).
  { rewrite !elem_of_cons. by auto. }
  destruct (StartupXuperos tr) as [o|] eqn:Hrun.
  - intros [= <- <-]. split_and!; try done.
    + split; [intros _ err; by destruct (returned o) | done].
    + intros _. by eauto.
    + intros _. rewrite !elem_of_cons. by auto.
    + destruct (returned o) eqn:Hr; [| done]. intros _. split; [done |].
      unfold StartupXuperos in Hrun.
      destruct (orchRun_account _ _ _ Hrun) as (_ & _ & _ & Hwg & Hret & _);
        [done |].
      destruct (Hret eq_refl Hr) as [Hz Hc]. specialize (Hwg eq_refl Hc).
      simpl in Hwg. lia.
  - intros [= <- <-]. split_and!; try done.
    + intros _. by eauto.
    + intros _. rewrite !elem_of_cons. by auto.
Qed.

End StartupMore.

(** ** The further theorems at concrete inputs *)

(** X1: an envelope that carries a correlation id. *)
Lemma envelope_with_logid_is_left_alone_witness :
  let req := mkMessage (Some (mkHeader "abc" "client-7" (XChainErrorEnum_CODE 3))) "q" in
  let final := (UnaryInterceptor (tcpCtx "10.0.0.7:5123") req
                  "/pb.Xendorser/EndorserCall" echoHandler freshServer).2 in
  Logid (mkHeader "abc" "client-7" (XChainErrorEnum_CODE 3)) <> ""
  /\ reqObj final = req /\ genCount (srv final) = 0.
Proof.
  intros req final.
  assert (Hid : Logid (mkHeader "abc" "client-7" (XChainErrorEnum_CODE 3)) <> "")
    by done.
  split; [exact Hid |].
  exact (@envelope_with_logid_is_left_alone demoCollaborators
           (tcpCtx "10.0.0.7:5123") req
           (mkHeader "abc" "client-7" (XChainErrorEnum_CODE 3))
           "/pb.Xendorser/EndorserCall" echoHandler freshServer eq_refl Hid).
Defined.

(** X2: two handlers that differ only on contexts without request context. *)
Lemma handler_is_consulted_on_the_request_context_witness :
  let picky : UnaryHandler :=
    fun ctx req => match ctxReqCtx ctx with
                   | Some _ => echoHandler ctx req
                   | None => HPanic "no request context"
                   end in
  UnaryInterceptor (tcpCtx "10.0.0.7:5123") (mkMessage None "q")
    "/pb.Xendorser/EndorserCall" picky freshServer
  = UnaryInterceptor (tcpCtx "10.0.0.7:5123") (mkMessage None "q")
      "/pb.Xendorser/EndorserCall" echoHandler freshServer.
Proof.
  intros picky.
  apply (@handler_is_consulted_on_the_request_context demoCollaborators).
  intros ip _ _. reflexivity.
Defined.

(** X3: a handler that returns no response, only an error. *)
Lemma response_and_error_pass_through_witness :
  let handler : UnaryHandler := fun _ _ => HReturn None (Some (Errorf "boom")) in
  getClietIP (tcpCtx "10.0.0.7:5123") = Val ("10.0.0.7", None)
  /\ (UnaryInterceptor (tcpCtx "10.0.0.7:5123") (mkMessage None "q")
        "/pb.Xendorser/EndorserCall" handler freshServer).1
     = Val (None, Some (Errorf "boom")).
Proof.
  intros handler. split; [reflexivity |].
  exact (@response_and_error_pass_through demoCollaborators
           (tcpCtx "10.0.0.7:5123") (mkMessage None "q")
           "/pb.Xendorser/EndorserCall" handler freshServer
           "10.0.0.7" None (Some (Errorf "boom")) eq_refl eq_refl eq_refl).
Defined.

(** X4: a served call on a fresh server. *)
Lemma served_call_logs_access_then_done_witness :
  let out := UnaryInterceptor (tcpCtx "10.0.0.7:5123") (mkMessage None "q")
               "/pb.Xendorser/EndorserCall" echoHandler freshServer in
  getClietIP (tcpCtx "10.0.0.7:5123") = Val ("10.0.0.7", None)
  /\ length (logs (srv out.2)) = 2
  /\ logMsg <$> logs (srv out.2) = ["access request"; "request done"].
Proof.
  intros out. split; [reflexivity |].
  pose proof (@served_call_logs_access_then_done demoCollaborators
                (tcpCtx "10.0.0.7:5123") (mkMessage None "q")
                "/pb.Xendorser/EndorserCall" echoHandler freshServer
                "10.0.0.7" (mkMessage None "q") None (mkStdError 200 0 "success")
                eq_refl eq_refl eq_refl eq_refl) as Hlogs.
  subst out. rewrite Hlogs. by split.
Defined.

(** X8: three configured endorsers. *)
Lemma getHost_picks_a_configured_host_witness :
  (forall seed n, 0 < n -> @Intn modRand seed n < n)
  /\ exists h, @getHost modRand 1700000000 ["a:1"; "b:1"; "c:1"] = Val h
               /\ h ∈ ["a:1"; "b:1"; "c:1"].
Proof.
  assert (Hrange : forall seed n, 0 < n -> @Intn modRand seed n < n).
  { intros seed n Hn. simpl. apply Nat.mod_upper_bound. lia. }
  split; [exact Hrange |].
  apply (proj2 (@getHost_picks_a_configured_host modRand 1700000000
                  ["a:1"; "b:1"; "c:1"] Hrange)).
  discriminate.
Defined.

(** X9: a cached host, while somebody holds the mutex. *)
Lemma getClient_cached_is_lock_free_witness :
  let sh := mkShared {["peer:1" := 0]} true [("peer:1", Some 0)] in
  mutex sh = true
  /\ @getClient dialOk "peer:1" sh = (Some (Some 0, None), sh).
Proof.
  intros sh. split; [reflexivity |].
  apply (@getClient_cached_is_lock_free dialOk); [discriminate |].
  apply lookup_singleton_eq.
Defined.

(** X10: the first call on a new server. *)
Lemma getClient_caches_what_it_dials_witness :
  let sh1 := (@getClient dialOk "peer:1" emptyShared).2 in
  (@getClient dialOk "peer:1" emptyShared).1 = Some (Some 0, None)
  /\ clientCache sh1 !! "peer:1" = Some 0
  /\ @getClient dialOk "peer:1" sh1 = (Some (Some 0, None), sh1).
Proof.
  intros sh1.
  destruct (@getClient_caches_what_it_dials dialOk "peer:1" emptyShared)
    as (Hr & Hc & _ & _ & _ & Hagain);
    [discriminate | apply lookup_empty | reflexivity | reflexivity |].
  split; [exact Hr |]. split; [exact Hc |]. exact Hagain.
Defined.

(** X11: a host that is down. *)
Lemma getClient_failed_dial_is_retried_witness :
  let sh1 := (@getClient dialDown "peer:1" emptyShared).2 in
  (@getClient dialDown "peer:1" emptyShared).1 = Some (None, Some (Errorf "dial failed"))
  /\ clientCache sh1 = ∅
  /\ length (dials (@getClient dialDown "peer:1" sh1).2) = 2.
Proof.
  intros sh1.
  destruct (@getClient_failed_dial_is_retried dialDown "peer:1"
              (Errorf "dial failed") emptyShared)
    as (Hr & Hc & _ & _ & Hagain);
    [discriminate | apply lookup_empty | reflexivity | reflexivity |].
  split; [exact Hr |]. split; [exact Hc |]. exact Hagain.
Defined.

(** X12: a new server, then one call. *)
Lemma getClient_keeps_the_server_consistent_witness :
  consistent emptyShared
  /\ consistent (@getClient dialOk "peer:1" emptyShared).2.
Proof.
  split; [exact consistent_empty |].
  exact (proj2 (@getClient_keeps_the_server_consistent dialOk "peer:1"
                  emptyShared consistent_empty)).
Defined.

(** X13: two tasks, one of them inside the critical section. *)
Lemma mutex_guards_the_dial_witness :
  let p := @runSchedule dialOk [0; 1; 0; 1; 0]%nat (spawn 2 "peer:1" emptyShared) in
  pc <$> tasks p = [PcDial; PcLock]
  /\ (mutex (shared p) = true <->
      exists i t, tasks p !! i = Some t /\ inCritical t = true).
Proof.
  intros p. split; [by vm_compute |].
  apply (@mutex_guards_the_dial dialOk
           [mkTask "peer:1" PcEntry; mkTask "peer:1" PcEntry] emptyShared p).
  - by repeat constructor.
  - exact consistent_empty.
  - apply (@runSchedule_rtc dialOk).
Defined.

(** X14: the entry made by the first task is there when the second task is
    done. *)
Lemma cache_entries_are_permanent_witness :
  let p := @runSchedule dialOk [0; 0; 0; 0; 0]%nat (spawn 2 "peer:1" emptyShared) in
  let p' := @runSchedule dialOk [0; 1; 1; 1; 1]%nat p in
  clientCache (shared p) !! "peer:1" = Some 0
  /\ clientCache (shared p') !! "peer:1" = Some 0.
Proof.
  intros p p'.
  assert (Hc : clientCache (shared p) !! "peer:1" = Some 0) by (by vm_compute).
  split; [exact Hc |].
  apply (@cache_entries_are_permanent dialOk
           [mkTask "peer:1" PcEntry; mkTask "peer:1" PcEntry] emptyShared p p').
  - by repeat constructor.
  - exact consistent_empty.
  - apply (@runSchedule_rtc dialOk).
  - apply (@runSchedule_rtc dialOk).
  - exact Hc.
Defined.

(** X15: both tasks returned. *)
Lemma same_host_same_client_witness :
  let p := @runSchedule dialOk [0; 1; 0; 1; 0; 1; 0; 1; 0; 1; 0; 1; 1; 1]%nat
             (spawn 2 "peer:1" emptyShared) in
  tasks p = [mkTask "peer:1" (PcDone (Some 0, None));
             mkTask "peer:1" (PcDone (Some 0, None))]
  /\ clientCache (shared p) !! "peer:1" = Some 0
  /\ established "peer:1" (shared p) = [0].
Proof.
  intros p.
  assert (Ht : tasks p = [mkTask "peer:1" (PcDone (Some 0, None));
                          mkTask "peer:1" (PcDone (Some 0, None))])
    by (by vm_compute).
  split; [exact Ht |].
  apply (@same_host_same_client dialOk
           [mkTask "peer:1" PcEntry; mkTask "peer:1" PcEntry] emptyShared p
           (mkTask "peer:1" (PcDone (Some 0, None)))
           (mkTask "peer:1" (PcDone (Some 0, None))) 0 0).
  - by repeat constructor.
  - exact consistent_empty.
  - apply (@runSchedule_rtc dialOk).
  - rewrite Ht. by left.
  - rewrite Ht. by left.
  - reflexivity.
  - reflexivity.
  - reflexivity.
Defined.

(** X16: three calls for two distinct hosts of a list that names one of them
    twice. *)
Lemma connections_bounded_by_hosts_witness :
  let hosts := ["a:1"; "b:1"; "a:1"] in
  let ts := [mkTask "a:1" PcEntry; mkTask "b:1" PcEntry; mkTask "a:1" PcEntry] in
  let p := @runSchedule dialOk
             [0; 1; 2; 0; 1; 2; 0; 0; 0; 0; 1; 1; 1; 1; 1; 2; 2; 2]%nat
             (mkPool ts (cacheState (NewRpcServ hosts))) in
  forallb isDone (tasks p) = true
  /\ dialedHosts (shared p) = ["a:1"; "b:1"]
  /\ length (dialedHosts (shared p)) <= length (remove_dups hosts).
Proof.
  intros hosts ts p.
  split; [by vm_compute |]. split; [by vm_compute |].
  apply (@connections_bounded_by_hosts dialOk hosts ts p).
  - subst ts hosts. repeat constructor; simpl; rewrite !elem_of_cons; by auto.
  - apply (@runSchedule_rtc dialOk).
Defined.

(** X17: one step of a single call. *)
Lemma calls_end_within_six_steps_each_witness :
  let p0 := spawn 1 "peer:1" emptyShared in
  let p1 := mkPool [mkTask "peer:1" PcLock] emptyShared in
  @poolStep dialOk 0 p0 = Some p1
  /\ 1 <= 6 * 1
  /\ exists p', @Step dialOk p1 p'.
Proof.
  intros p0 p1.
  assert (Hs : @poolStep dialOk 0 p0 = Some p1) by reflexivity.
  split; [exact Hs |].
  destruct (@calls_end_within_six_steps_each dialOk
              [mkTask "peer:1" PcEntry] emptyShared p1 1) as [Hle Hmove].
  - by repeat constructor.
  - exact consistent_empty.
  - apply nsteps_once. by apply (@Step_task dialOk 0).
  - split; [exact Hle |]. by apply Hmove.
Defined.

(** X18: a signal, then the engine stops. *)
Lemma exit_requests_are_counted_witness :
  StartupXuperos [RecvSigChan; EngineStartReturns; RecvEngChan]
  = Some (mkOrch 1 false true false false 1 2 false false)
  /\ servExitCalls (mkOrch 1 false true false false 1 2 false false) = 1 + 1
  /\ engineExitCalls (mkOrch 1 false true false false 1 2 false false) = 1 + 0.
Proof.
  split; [reflexivity |].
  destruct (exit_requests_are_counted
              [RecvSigChan; EngineStartReturns; RecvEngChan]
              (mkOrch 1 false true false false 1 2 false false) eq_refl)
    as (Hs & He & _).
  split; [exact Hs | exact He].
Defined.

(** X19: the engine returned and its completion was not received yet. *)
Lemma completion_is_signalled_once_witness :
  StartupXuperos [EngineStartReturns]
  = Some (mkOrch 2 false true true false 0 0 false false)
  /\ (engChanSend (mkOrch 2 false true true false 0 0 false false) = true <->
      EngineStartReturns ∈ [EngineStartReturns]
      /\ RecvEngChan ∉ [EngineStartReturns]).
Proof.
  split; [reflexivity |].
  destruct (completion_is_signalled_once [EngineStartReturns]
              (mkOrch 2 false true true false 0 0 false false) eq_refl)
    as (_ & _ & _ & _ & _ & Hsend).
  exact Hsend.
Defined.

(** X20: the run that returns. *)
Lemma barrier_counts_two_receives_witness :
  StartupXuperos [EngineStartReturns; RecvEngChan; RecvRpcChan; WaitReturns]
  = Some (mkOrch 0 false true false false 1 1 true false)
  /\ occurrences RecvEngChan
       [EngineStartReturns; RecvEngChan; RecvRpcChan; WaitReturns]
     + occurrences RecvRpcChan
         [EngineStartReturns; RecvEngChan; RecvRpcChan; WaitReturns] = 2.
Proof.
  split; [reflexivity |].
  destruct (barrier_counts_two_receives
              [EngineStartReturns; RecvEngChan; RecvRpcChan; WaitReturns]
              (mkOrch 0 false true false false 1 1 true false) eq_refl)
    as (_ & _ & Hret & _).
  exact (proj1 (Hret eq_refl)).
Defined.

(** X21: the configuration loads and the engine cannot be created. *)
Lemma startup_errors_come_before_the_start_witness :
  @StartupXuperosFrom demoBoot "env.yaml" []
  = ([InitLog "conf/log.yaml" "/data/logs"], Some (Some (Errorf "engine failed")))
  /\ ~ SubsystemsStarted ∈ [InitLog "conf/log.yaml" "/data/logs"].
Proof.
  split; [reflexivity |].
  destruct (@startup_errors_come_before_the_start demoBoot "env.yaml" []
              [InitLog "conf/log.yaml" "/data/logs"]
              (Some (Some (Errorf "engine failed"))) eq_refl)
    as (_ & Hstarted & _).
  intros Hin. by apply (proj1 Hstarted Hin (Errorf "engine failed")).
Defined.
